(** * tsh: a tiny shell with job control

    A shallow embedding of [tsh.c] and the properties of its job-control
    engine: the job table, the built-in commands and the signal handlers.

    The shell's globals ([jobs], [nextjid], [verbose]) together with what
    the shell does to the outside world (text written to stdout, signals
    sent) form the state [shell]; C functions that touch it are
    computations in the monad [M].  Answers of the operating system
    (results of [fork], [kill] and [waitpid]) are explicit arguments. *)

From Stdlib Require Import ZArith String Ascii List Lia.
From stdpp Require Import base option list relations strings pretty.

Local Open Scope Z_scope.

(** ** C integers and C strings *)

Module CInt.

Definition INT_MIN : Z := -2147483648.
Definition INT_MAX : Z := 2147483647.
Definition LONG_MAX : Z := 9223372036854775807.

(** Conversion to the 32-bit [int]: two's complement wrap-around, which
    is what [nextjid++] and [maxjid(jobs)+1] compute on the usual
    targets when the mathematical result leaves the range. *)
Definition to_int (z : Z) : Z := (z + 2 ^ 31) mod 2 ^ 32 - 2 ^ 31.

Definition isdigit (c : ascii) : bool :=
  let n := N_of_ascii c in (48 <=? n)%N && (n <=? 57)%N.

(** [strtol]'s accumulation of the leading decimal digits. *)
Fixpoint digits_val (acc : Z) (s : string) : Z :=
  match s with
  | String c r =>
      if isdigit c then digits_val (10 * acc + (Z.of_N (N_of_ascii c) - 48)) r
      else acc
  | EmptyString => acc
  end.

(** [atoi] on the strings the shell hands to it, which have passed
    [isnumber] and so carry neither blanks nor a sign: the decimal
    value, saturated at [LONG_MAX] as [strtol] does and then converted
    to [int]. *)
Definition atoi (s : string) : Z := to_int (Z.min LONG_MAX (digits_val 0 s)).

End CInt.
Export CInt.

(** [printf("%d", z)] *)
Definition fmt_d (z : Z) : string := pretty z.

(** The newline character, as a string. *)
Definition NL : string := String "010" EmptyString.

(** ** Manifest constants, the job struct and the globals *)

Definition MAXJOBS : Z := 16.

Definition UNDEF : Z := 0.
Definition FG : Z := 1.
Definition BG : Z := 2.
Definition ST : Z := 3.

Record job_t := Job {
  pid : Z;
  jid : Z;
  state : Z;
  cmdline : string
}.

Global Instance job_t_eq_dec : EqDecision job_t.
Proof. solve_decision. Defined.

Inductive signal := SIGINT | SIGTSTP | SIGCONT.

Record shell := Shell {
  jobs : list job_t;          (* struct job_t jobs[MAXJOBS] *)
  nextjid : Z;                (* next job ID to allocate *)
  verbose : Z;                (* if true, print additional output *)
  out : string;               (* everything written to stdout so far *)
  sent : list (Z * signal);   (* successful kill(pid, sig) calls, oldest first *)
  waiting : option Z          (* Some pid: the main flow is inside waitfg(pid) *)
}.

(** Answer of the operating system to one system call: the returned
    integer and the text [strerror(errno)] would give after it. *)
Record sysret := SysRet { sys_val : Z; sys_err : string }.

(** ** The monad of shell computations *)

(** A computation returns normally, leaves the process through [exit],
    faults by dereferencing a null pointer, or (after [fork]) finds
    itself in the child, which leaves the shell's code through [execve]. *)
Inductive result (A : Type) :=
  | Ret (a : A) (s : shell)
  | Exit (code : Z) (s : shell)
  | Fault (s : shell)
  | Child (s : shell).
Arguments Ret {A} a s.
Arguments Exit {A} code s.
Arguments Fault {A} s.
Arguments Child {A} s.

Definition M (A : Type) : Type := shell -> result A.

Global Instance M_ret : MRet M := fun A a s => Ret a s.
Global Instance M_bind : MBind M := fun A B f m s =>
  match m s with
  | Ret a s' => f a s'
  | Exit c s' => Exit c s'
  | Fault s' => Fault s'
  | Child s' => Child s'
  end.

Definition gets {A} (f : shell -> A) : M A := fun s => Ret (f s) s.
Definition modify (f : shell -> shell) : M unit := fun s => Ret tt (f s).
Definition exit {A} (code : Z) : M A := fun s => Exit code s.
Definition fault {A} : M A := fun s => Fault s.
Definition skip : M unit := mret tt.

Definition with_jobs (js : list job_t) (s : shell) : shell :=
  Shell js (nextjid s) (verbose s) (out s) (sent s) (waiting s).
Definition with_nextjid (n : Z) (s : shell) : shell :=
  Shell (jobs s) n (verbose s) (out s) (sent s) (waiting s).
Definition with_out (o : string) (s : shell) : shell :=
  Shell (jobs s) (nextjid s) (verbose s) o (sent s) (waiting s).
Definition with_sent (l : list (Z * signal)) (s : shell) : shell :=
  Shell (jobs s) (nextjid s) (verbose s) (out s) l (waiting s).
Definition with_waiting (w : option Z) (s : shell) : shell :=
  Shell (jobs s) (nextjid s) (verbose s) (out s) (sent s) w.

Definition printf (text : string) : M unit :=
  modify (fun s => with_out (out s +:+ text) s).

(** A [struct job_t *] into the table is a slot index; [None] is NULL. *)
Definition job_ptr := option nat.

Definition deref (job : job_ptr) : M job_t :=
  js ← gets jobs;
  match job ≫= (fun i => js !! i) with
  | Some j => mret j
  | None => fault
  end.

(** [job->state = st] *)
Definition store_state (job : job_ptr) (st : Z) : M unit :=
  j ← deref job;
  match job with
  | Some i =>
      modify (fun s => with_jobs (<[i := Job (pid j) (jid j) st (cmdline j)]> (jobs s)) s)
  | None => fault
  end.

(** ** Helper routines that manipulate the job list *)

Definition clearjob (job : job_t) : job_t := Job 0 0 UNDEF EmptyString.

Definition initjobs (js : list job_t) : list job_t := map clearjob js.

Fixpoint maxjid_from (max : Z) (js : list job_t) : Z :=
  match js with
  | [] => max
  | j :: r => maxjid_from (if jid j >? max then jid j else max) r
  end.

Definition maxjid (js : list job_t) : Z := maxjid_from 0 js.

Definition addjob (p st : Z) (cl : string) : M Z :=
  if p <? 1 then mret 0
  else
    js ← gets jobs;
    match list_find (fun j => pid j = 0) js with
    | Some (i, _) =>
        n ← gets nextjid;
        modify (with_jobs (<[i := Job p n st cl]> js));;
        modify (with_nextjid (to_int (n + 1)));;
        n' ← gets nextjid;
        (if n' >? MAXJOBS then modify (with_nextjid 1) else skip);;
        v ← gets verbose;
        (if v =? 0 then skip
         else printf ("Added job [" +:+ fmt_d n +:+ "] " +:+ fmt_d p +:+ " " +:+ cl +:+ NL));;
        mret 1
    | None =>
        printf ("Tried to create too many jobs" +:+ NL);;
        mret 0
    end.

Definition deletejob (p : Z) : M Z :=
  if p <? 1 then mret 0
  else
    js ← gets jobs;
    match list_find (fun j => pid j = p) js with
    | Some (i, j) =>
        modify (with_jobs (<[i := clearjob j]> js));;
        js' ← gets jobs;
        modify (with_nextjid (to_int (maxjid js' + 1)));;
        mret 1
    | None => mret 0
    end.

Definition fgpid (js : list job_t) : Z :=
  match list_find (fun j => state j = FG) js with
  | Some (_, j) => pid j
  | None => 0
  end.

Definition getjobpid (js : list job_t) (p : Z) : job_ptr :=
  if p <? 1 then None
  else fst <$> list_find (fun j => pid j = p) js.

Definition getjobjid (js : list job_t) (n : Z) : job_ptr :=
  if n <? 1 then None
  else fst <$> list_find (fun j => jid j = n) js.

Definition pid2jid (js : list job_t) (p : Z) : Z :=
  if p <? 1 then 0
  else match list_find (fun j => pid j = p) js with
       | Some (_, j) => jid j
       | None => 0
       end.

Definition state_text (i : nat) (j : job_t) : string :=
  if state j =? BG then "Running "
  else if state j =? FG then "Foreground "
  else if state j =? ST then "Stopped "
  else "listjobs: Internal error: job[" +:+ fmt_d (Z.of_nat i) +:+ "].state="
         +:+ fmt_d (state j) +:+ " ".

Fixpoint listjobs_from (i : nat) (js : list job_t) : M unit :=
  match js with
  | [] => skip
  | j :: r =>
      (if pid j =? 0 then skip
       else
         printf ("[" +:+ fmt_d (jid j) +:+ "] (" +:+ fmt_d (pid j) +:+ ") ");;
         printf (state_text i j);;
         printf (cmdline j));;
      listjobs_from (S i) r
  end.

Definition listjobs : M unit := js ← gets jobs; listjobs_from 0 js.

Fixpoint listbgjobs_from (js : list job_t) : M unit :=
  match js with
  | [] => skip
  | j :: r =>
      (if pid j =? 0 then skip
       else if state j =? BG then
         printf ("[" +:+ fmt_d (jid j) +:+ "] (" +:+ fmt_d (pid j) +:+ ") ");;
         printf "Running ";;
         printf (cmdline j)
       else if state j =? ST then
         printf ("[" +:+ fmt_d (jid j) +:+ "] (" +:+ fmt_d (pid j) +:+ ") ");;
         printf "Stopped ";;
         printf (cmdline j)
       else skip);;
      listbgjobs_from r
  end.

Definition listbgjobs : M unit := js ← gets jobs; listbgjobs_from js.

(** ** Other helper routines *)

Definition listjob (job : job_ptr) : M unit :=
  j ← deref job;
  printf ("[" +:+ fmt_d (jid j) +:+ "] (" +:+ fmt_d (pid j) +:+ ") " +:+ cmdline j).

Definition unix_error {A} (msg : string) (r : sysret) : M A :=
  printf (msg +:+ ": " +:+ sys_err r +:+ NL);; exit 1.

Definition app_error {A} (msg : string) : M A :=
  printf (msg +:+ NL);; exit 1.

Fixpoint isnumber (num : string) : bool :=
  match num with
  | EmptyString => true
  | String c r => if isdigit c then isnumber r else false
  end.

(** [Kill(pid, sig)], with [r] the answer of [kill(2)]. *)
Definition Kill (r : sysret) (p : Z) (sig : signal) : M Z :=
  if sys_val r <? 0 then unix_error "kill failed" r
  else modify (fun s => with_sent (sent s ++ [(p, sig)]) s);; mret (sys_val r).

(** ** parseline *)

(** [strchr(buf, c)] followed by [*delim = 0; buf = delim + 1]: the text
    before the first [c] and the text after it. *)
Fixpoint strchr (c : ascii) (buf : string) : option (string * string) :=
  match buf with
  | EmptyString => None
  | String a r =>
      if Ascii.eqb a c then Some (EmptyString, r)
      else match strchr c r with
           | Some (tok, rest) => Some (String a tok, rest)
           | None => None
           end
  end.

Fixpoint skip_spaces (buf : string) : string :=
  match buf with
  | String " " r => skip_spaces r
  | _ => buf
  end.

Definition find_delim (buf : string) : option (string * string) :=
  match buf with
  | String "'" r => strchr "'" r
  | _ => strchr " " buf
  end.

(** The [while (delim)] loop; every round consumes the delimiter, so
    [String.length buf] rounds are enough. *)
Fixpoint build_argv (rounds : nat) (buf : string) : list string :=
  match rounds with
  | O => []
  | S n =>
      match find_delim buf with
      | Some (tok, rest) => tok :: build_argv n (skip_spaces rest)
      | None => []
      end
  end.

(** [buf[strlen(buf)-1] = ' '], undefined on the empty line. *)
Fixpoint blank_last (buf : string) : option string :=
  match buf with
  | EmptyString => None
  | String a EmptyString => Some (String " " EmptyString)
  | String a r => String a <$> blank_last r
  end.

Definition first_char (a : string) : option ascii :=
  match a with
  | EmptyString => None
  | String c _ => Some c
  end.

(** The result is the returned [bg] and the argument list left in [argv]. *)
Definition parseline (cl : string) : option (Z * list string) :=
  buf ← blank_last cl;
  let buf := skip_spaces buf in
  let argv := build_argv (String.length buf) buf in
  match last argv with
  | None => Some (-1, argv)
  | Some a =>
      if bool_decide (first_char a = Some "&"%char)
      then Some (1, removelast argv)
      else Some (0, argv)
  end.

(** ** Built-in commands and eval *)

(** [waitfg] polls [fgpid(jobs) != pid] once a second while the handlers
    run; every call of it is the last action of its caller, so the
    embedding records that the main flow is blocked on [pid] and lets the
    transition system below decide when the loop is left. *)
Definition waitfg (p : Z) : M unit := modify (with_waiting (Some p)).

(** Lines 378-406 of [do_bgfg], once [job] is known not to be NULL. *)
Definition do_bgfg_job (isbg : bool) (job : job_ptr) (kill_r : sysret) : M unit :=
  j ← deref job;
  if isbg && negb (state j =? ST) then
    printf ("bg error - Job is not STOPPED." +:+ NL)
  else if negb isbg && negb ((state j =? ST) || (state j =? BG)) then
    printf ("fg error - Job is not STOPPED or in BACKGROUND." +:+ NL)
  else
    Kill kill_r (to_int (- pid j)) SIGCONT;;
    (if isbg then listjob job;; store_state job BG
     else store_state job FG);;
    if negb isbg then j' ← deref job; waitfg (pid j') else skip.

Definition do_bgfg (argv : list string) (kill_r : sysret) : M unit :=
  match argv with
  | [] => fault
  | argv0 :: args =>
      let isbg := bool_decide (argv0 = "bg") in
      match args with
      | [] => printf (argv0 +:+ " command requires PID or %jobid argument" +:+ NL)
      | argv1 :: _ =>
          js ← gets jobs;
          match argv1 with
          | String "%" jid =>
              if negb (isnumber jid) then
                printf (argv0 +:+ ": argument must be a PID or %jobid" +:+ NL)
              else
                match getjobjid js (atoi jid) with
                | None => printf ("no such job" +:+ NL)
                | job => do_bgfg_job isbg job kill_r
                end
          | _ =>
              if negb (isnumber argv1) then
                printf (argv0 +:+ ": argument must be a PID or %jobid" +:+ NL)
              else
                match getjobpid js (atoi argv1) with
                | None => printf ("no such process" +:+ NL)
                | job => do_bgfg_job isbg job kill_r
                end
          end
      end
  end.

Definition builtin_cmd (argv : list string) (kill_r : sysret) : M Z :=
  match argv with
  | [] => fault
  | argv0 :: _ =>
      if bool_decide (argv0 = "quit") then exit 0
      else if bool_decide (argv0 = "bg") then do_bgfg argv kill_r;; mret 1
      else if bool_decide (argv0 = "fg") then do_bgfg argv kill_r;; mret 1
      else if bool_decide (argv0 = "jobs") then listbgjobs;; mret 1
      else mret 0
  end.

(** [eval]: [fork_r] is what [fork] answers in the process that runs [eval];
    [kill_r] is what [kill] answers should a built-in send a signal. *)
Definition eval (cl : string) (fork_r kill_r : sysret) : M unit :=
  match parseline cl with
  | None => fault
  | Some (bg, argv) =>
      if bg =? -1 then skip
      else
        b ← builtin_cmd argv kill_r;
        if b =? 0 then
          let p := sys_val fork_r in
          if p <? 0 then unix_error "fork failed." fork_r
          else if p =? 0 then (fun s => Child s)
          else
            addjob p (bg + 1) cl;;
            (if bg =? 0 then skip
             else js ← gets jobs; listjob (getjobpid js p));;
            if bg =? 0 then waitfg p else skip
        else skip
  end.

(** ** Signal handlers *)

(** The status word filled in by [waitpid] with [WNOHANG | WUNTRACED]. *)
Inductive wstatus :=
  | WExited (code : Z)
  | WSignaled (sig : Z)
  | WStopped (sig : Z).

Definition WIFEXITED (st : wstatus) : bool :=
  match st with WExited _ => true | _ => false end.
Definition WIFSIGNALED (st : wstatus) : bool :=
  match st with WSignaled _ => true | _ => false end.
Definition WIFSTOPPED (st : wstatus) : bool :=
  match st with WStopped _ => true | _ => false end.
Definition WTERMSIG (st : wstatus) : Z :=
  match st with WSignaled n => n | _ => 0 end.
Definition WSTOPSIG (st : wstatus) : Z :=
  match st with WStopped n => n | _ => 0 end.

(** The body of the [while] loop of [sigchld_handler] for one child. *)
Definition sigchld_child (p : Z) (st : wstatus) : M unit :=
  (if WIFEXITED st then deletejob p;; skip else skip);;
  (if WIFSTOPPED st then
     js ← gets jobs;
     printf ("Job [" +:+ fmt_d (pid2jid js p) +:+ "] (" +:+ fmt_d p
               +:+ ") stopped by signal " +:+ fmt_d (WSTOPSIG st) +:+ NL)
   else skip);;
  (if WIFSIGNALED st then
     js ← gets jobs;
     printf ("Job [" +:+ fmt_d (pid2jid js p) +:+ "] (" +:+ fmt_d p
               +:+ ") terminated by signal " +:+ fmt_d (WTERMSIG st) +:+ NL);;
     deletejob p;; skip
   else skip).

(** [reaped] lists what the successive [waitpid] calls return; the loop
    ends at the first pid that is not positive, or when the list is
    exhausted ([waitpid] then answers 0 or -1). *)
Fixpoint sigchld_handler (reaped : list (Z * wstatus)) : M unit :=
  match reaped with
  | [] => skip
  | (p, st) :: more =>
      if p >? 0 then sigchld_child p st;; sigchld_handler more
      else skip
  end.

Definition sigint_handler (kill_r : sysret) : M unit :=
  js ← gets jobs;
  let p := fgpid js in
  if p =? 0 then skip
  else Kill kill_r (to_int (- p)) SIGINT;; skip.

Definition sigtstp_handler (kill_r : sysret) : M unit :=
  js ← gets jobs;
  let p := fgpid js in
  if p =? 0 then skip
  else
    Kill kill_r (to_int (- p)) SIGTSTP;;
    js' ← gets jobs;
    store_state (getjobpid js' p) ST.

Definition sigquit_handler : M unit :=
  printf ("Terminating after receipt of SIGQUIT signal" +:+ NL);; exit 1.

(** ** The shell as a transition system *)

(** The state in which [main] enters its read/eval loop. *)
Definition boot (v : Z) : shell :=
  Shell (initjobs (replicate (Z.to_nat MAXJOBS) (Job 0 0 0 EmptyString))) 1 v EmptyString [] None.

Definition ok : sysret := SysRet 0 EmptyString.
Definition forked (p : Z) : sysret := SysRet p EmptyString.

(** One move of the running shell.  The main flow evaluates a command
    line only when it is not blocked in [waitfg]; it leaves [waitfg(p)]
    when a poll finds [fgpid(jobs) != p]; the handlers run at any time.
    Each operation runs to completion before the next one starts. *)
Inductive step : shell -> shell -> Prop :=
  | step_eval s cl fork_r kill_r s' :
      waiting s = None ->
      eval cl fork_r kill_r s = Ret tt s' ->
      step s s'
  | step_waitfg s p :
      waiting s = Some p ->
      fgpid (jobs s) <> p ->
      step s (with_waiting None s)
  | step_sigchld s reaped s' :
      sigchld_handler reaped s = Ret tt s' ->
      step s s'
  | step_sigint s kill_r s' :
      sigint_handler kill_r s = Ret tt s' ->
      step s s'
  | step_sigtstp s kill_r s' :
      sigtstp_handler kill_r s = Ret tt s' ->
      step s s'.

Definition reachable (s : shell) : Prop := exists v, rtc step (boot v) s.

(** The table operations on their own, applied in any order and with any
    arguments. *)
Inductive op_step : shell -> shell -> Prop :=
  | op_addjob s p st cl r s' :
      addjob p st cl s = Ret r s' -> op_step s s'
  | op_deletejob s p r s' :
      deletejob p s = Ret r s' -> op_step s s'
  | op_do_bgfg s argv kill_r s' :
      do_bgfg argv kill_r s = Ret tt s' -> op_step s s'
  | op_sigtstp s kill_r s' :
      sigtstp_handler kill_r s = Ret tt s' -> op_step s s'.

Definition op_reachable (s : shell) : Prop := exists v, rtc op_step (boot v) s.

(** ** Vocabulary of the properties *)

(** A slot holds a live job when its pid is not the sentinel 0. *)
Definition live (j : job_t) : Prop := pid j <> 0.

Global Instance live_dec j : Decision (live j).
Proof. unfold live. apply _. Defined.

Definition foreground (j : job_t) : Prop := live j /\ state j = FG.

(** At most one live job is in the foreground: two slots holding a live
    foreground job are the same slot. *)
Definition at_most_one_fg (js : list job_t) : Prop :=
  forall i i' j j',
    js !! i = Some j -> js !! i' = Some j' ->
    foreground j -> foreground j' -> i = i'.

(** The command returned after appending [msg] to stdout, and did
    nothing else: no signal was sent, and the job table, the job-id
    counter and the wait status of the main flow are as before. *)
Definition prints_only (msg : string) (s : shell) (r : result unit) : Prop :=
  exists s', r = Ret tt s' /\
    out s' = out s +:+ msg /\ sent s' = sent s /\ jobs s' = jobs s /\
    nextjid s' = nextjid s /\ waiting s' = waiting s.

(** The slot a [bg]/[fg] argument resolves to (lines 353-376): a job id
    after the marker [%], a process id otherwise. *)
Definition bgfg_target (js : list job_t) (a : string) : job_ptr :=
  match a with
  | String "%" d => if isnumber d then getjobjid js (atoi d) else None
  | _ => if isnumber a then getjobpid js (atoi a) else None
  end.

(** The digits of a [bg]/[fg] argument: what follows the marker [%], or
    the whole argument. *)
Definition numeric_part (a : string) : string :=
  match a with
  | String "%" d => d
  | _ => a
  end.

(** The code of [do_bgfg] after the test of [argv[1]] when the argument
    does not start with the job-id marker. *)
Definition do_bgfg_pid (argv0 a : string) (kill_r : sysret) : M unit :=
  js ← gets jobs;
  if negb (isnumber a) then
    printf (argv0 +:+ ": argument must be a PID or %jobid" +:+ NL)
  else
    match getjobpid js (atoi a) with
    | None => printf ("no such process" +:+ NL)
    | job => do_bgfg_job (bool_decide (argv0 = "bg")) job kill_r
    end.

(** ** Texts the shell prints *)

(** A slot appears in the listing when it holds a live job that is in
    the background or stopped. *)
Definition shown (j : job_t) : Prop :=
  live j /\ (state j = BG \/ state j = ST).

Global Instance shown_dec j : Decision (shown j).
Proof. unfold shown, live. apply _. Defined.

(** The line of one job: job id, process id, state in words, and the
    command line as it was typed (which ends the line). *)
Definition job_line (j : job_t) : string :=
  "[" +:+ fmt_d (jid j) +:+ "] (" +:+ fmt_d (pid j) +:+ ") "
    +:+ (if state j =? BG then "Running " else "Stopped ") +:+ cmdline j.

Definition listing (js : list job_t) : string :=
  foldr (fun j text => job_line j +:+ text) EmptyString (filter shown js).

(** The line [addjob] prints with [-v]. *)
Definition verbose_note (s : shell) (p : Z) (cl : string) : string :=
  if verbose s =? 0 then EmptyString
  else "Added job [" +:+ fmt_d (nextjid s) +:+ "] " +:+ fmt_d p +:+ " " +:+ cl +:+ NL.

(** What [listjob] prints for a job. *)
Definition announce (j : job_t) : string :=
  "[" +:+ fmt_d (jid j) +:+ "] (" +:+ fmt_d (pid j) +:+ ") " +:+ cmdline j.

Definition is_builtin (argv0 : string) : Prop :=
  argv0 = "quit" \/ argv0 = "bg" \/ argv0 = "fg" \/ argv0 = "jobs".

(** [eval] on a command line that names an external program. *)
Definition eval_external (cl : string) (bg : Z) (fork_r : sysret) : M unit :=
  let p := sys_val fork_r in
  if p <? 0 then unix_error "fork failed." fork_r
  else if p =? 0 then (fun s => Child s)
  else
    addjob p (bg + 1) cl;;
    (if bg =? 0 then skip
     else js ← gets jobs; listjob (getjobpid js p));;
    if bg =? 0 then waitfg p else skip.

(** ** The job-id counter *)

(** [nextjid] after [jid = nextjid++] and the test against [MAXJOBS]. *)
Definition next_after_add (n : Z) : Z :=
  let n' := to_int (n + 1) in if n' >? MAXJOBS then 1 else n'.

(** The largest job id among the live jobs, 0 when there is none. *)
Definition max_live_jid (js : list job_t) : Z :=
  foldr Z.max 0 (map jid (filter live js)).

(** The relation the specification words: the largest live job id plus
    one, or 1 when that exceeds the capacity of the table. *)
Definition spec_next_jid (js : list job_t) : Z :=
  let n := max_live_jid js + 1 in if n >? MAXJOBS then 1 else n.

(** ** Effects on the job table *)

(** The table once the job of process [p] is removed: the slot that the
    pid lookup finds is cleared, every other slot is as before. *)
Definition without_job (p : Z) (js : list job_t) : list job_t :=
  match getjobpid js p with
  | Some i => <[i := Job 0 0 UNDEF EmptyString]> js
  | None => js
  end.

(** Whatever it prints or signals, a move of the shell changes the job
    table, [nextjid] and the wait status in one of a few ways. *)
Inductive tstep (s s' : shell) : Prop :=
  | t_same :
      jobs s' = jobs s -> nextjid s' = nextjid s -> waiting s' = waiting s ->
      tstep s s'
  | t_wake p :
      jobs s' = jobs s -> nextjid s' = nextjid s ->
      waiting s = Some p -> fgpid (jobs s) <> p -> waiting s' = None ->
      tstep s s'
  | t_wait p :
      jobs s' = jobs s -> nextjid s' = nextjid s ->
      waiting s = None -> waiting s' = Some p ->
      tstep s s'
  | t_clear i j :
      jobs s !! i = Some j ->
      jobs s' = <[i := Job 0 0 UNDEF EmptyString]> (jobs s) ->
      nextjid s' = to_int (maxjid (jobs s') + 1) ->
      waiting s' = waiting s ->
      tstep s s'
  | t_state i j st :
      jobs s !! i = Some j -> st <> FG ->
      jobs s' = <[i := Job (pid j) (jid j) st (cmdline j)]> (jobs s) ->
      nextjid s' = nextjid s -> waiting s' = waiting s ->
      tstep s s'
  | t_fg i j :
      waiting s = None ->
      jobs s !! i = Some j ->
      jobs s' = <[i := Job (pid j) (jid j) FG (cmdline j)]> (jobs s) ->
      nextjid s' = nextjid s -> waiting s' = Some (pid j) ->
      tstep s s'
  | t_add i j0 p st cl :
      waiting s = None ->
      list_find (fun j => pid j = 0) (jobs s) = Some (i, j0) -> 1 <= p ->
      jobs s' = <[i := Job p (nextjid s) st cl]> (jobs s) ->
      nextjid s' = next_after_add (nextjid s) ->
      waiting s' = (if st =? FG then Some p else None) ->
      tstep s s'.

(** While the main flow waits for [p], every slot in state [FG] carries
    pid [p]; while it does not wait, no slot is in state [FG]; and never
    are two slots in state [FG]. *)
Definition fg_discipline (s : shell) : Prop :=
  (forall i i' j j',
      jobs s !! i = Some j -> jobs s !! i' = Some j' ->
      state j = FG -> state j' = FG -> i = i') /\
  (forall k y, jobs s !! k = Some y -> state y = FG ->
               match waiting s with
               | Some p => pid y = p
               | None => False
               end).

(** Free slots are clear: a slot without a pid has job id 0. *)
Definition free_slots_clear (js : list job_t) : Prop :=
  forall k y, js !! k = Some y -> pid y = 0 -> jid y = 0.

(** ** States used in the examples *)

(** The state a computation ends in, whichever way it ends. *)
Definition after {A} (r : result A) : shell :=
  match r with
  | Ret _ s | Exit _ s | Fault s | Child s => s
  end.

(** One background job: [sleep 5 &] run from the initial state by the
    child 100. *)
Definition one_bg : shell := after (eval ("sleep 5 &" +:+ NL) (forked 100) ok (boot 0)).

(** One foreground job: [sleep 5] run from the initial state by the
    child 100. *)
Definition one_fg : shell := after (eval ("sleep 5" +:+ NL) (forked 100) ok (boot 0)).

(** Two foreground jobs entered by two calls of [addjob]. *)
Definition two_fg : shell :=
  after (addjob 101 FG ("cat" +:+ NL) (after (addjob 100 FG ("vi" +:+ NL) (boot 0)))).

(** A background command run by the child [p], and the child [p]
    reported as exited. *)
Definition spawn_bg (s : shell) (p : Z) : shell :=
  after (eval ("sleep 9 &" +:+ NL) (forked p) ok s).
Definition reap (s : shell) (p : Z) : shell :=
  after (sigchld_handler [(p, WExited 0)] s).

(** Sixteen background jobs, run by the children 101 to 116. *)
Definition full_table : shell := foldl spawn_bg (boot 0) (seqZ 101 16).

(** From the full table the children 102 and 103 exit and one more
    background job, child 117, is started. *)
Definition wrapped_table : shell :=
  spawn_bg (reap (reap full_table 102) 103) 117.

(** ** Further vocabulary *)

(** A change of the job table that enters no job: nothing, a slot
    cleared by [deletejob], or the state of a slot found by a pid or job-id
    lookup set to [FG], [BG] or [ST]. *)
Inductive qstep (s s' : shell) : Prop :=
  | q_same :
      jobs s' = jobs s -> nextjid s' = nextjid s -> qstep s s'
  | q_clear i j :
      jobs s !! i = Some j ->
      jobs s' = <[i := Job 0 0 UNDEF EmptyString]> (jobs s) ->
      nextjid s' = to_int (maxjid (jobs s') + 1) ->
      qstep s s'
  | q_state i j st :
      jobs s !! i = Some j -> 1 <= pid j \/ 1 <= jid j ->
      st = FG \/ st = BG \/ st = ST ->
      jobs s' = <[i := Job (pid j) (jid j) st (cmdline j)]> (jobs s) ->
      nextjid s' = nextjid s ->
      qstep s s'.

(** A job entered by [eval]: in the first free slot, in state [FG] or
    [BG], under the job id [nextjid]. *)
Inductive astep (s s' : shell) : Prop :=
  | a_add i j0 p st cl :
      list_find (fun j => pid j = 0) (jobs s) = Some (i, j0) -> 1 <= p ->
      st = FG \/ st = BG ->
      jobs s' = <[i := Job p (nextjid s) st cl]> (jobs s) ->
      nextjid s' = next_after_add (nextjid s) ->
      astep s s'.

(** A slot is in order when it is clear, or holds a job with a positive
    pid in one of the three job states. *)
Definition slot_ok (j : job_t) : Prop :=
  j = Job 0 0 UNDEF EmptyString \/
  (1 <= pid j /\ (state j = FG \/ state j = BG \/ state j = ST)).

Definition table_ok (js : list job_t) : Prop := Forall slot_ok js.

(** The words of [listjobs] for the three job states. *)
Definition state_word (j : job_t) : string :=
  if state j =? BG then "Running "
  else if state j =? FG then "Foreground "
  else "Stopped ".

(** What [listjobs] prints for a table in order: a line for every live
    job. *)
Definition full_listing (js : list job_t) : string :=
  foldr (fun j text =>
           "[" +:+ fmt_d (jid j) +:+ "] (" +:+ fmt_d (pid j) +:+ ") "
             +:+ state_word j +:+ cmdline j +:+ text)
        EmptyString (filter live js).

(** After at most [b] moves: the counter and the job ids lie between 1
    and [b + 1], free slots have job id 0. *)
Definition jids_within (b : Z) (s : shell) : Prop :=
  1 <= nextjid s <= b + 1 /\
  Forall (fun j => 0 <= jid j <= b /\ (live j -> 1 <= jid j)) (jobs s).

(** [n] blanks. *)
Fixpoint spaces (n : nat) : string :=
  match n with
  | O => EmptyString
  | S k => String " " (spaces k)
  end.

Fixpoint no_space (w : string) : bool :=
  match w with
  | EmptyString => true
  | String c r => negb (Ascii.eqb c " ") && no_space r
  end.

(** A plain word: not empty, free of blanks, and not opening a quote. *)
Definition plain (w : string) : bool :=
  match w with
  | EmptyString => false
  | String c _ => negb (Ascii.eqb c "'") && no_space w
  end.

(** The buffer in front of [build_argv] when the words [ws] are left. *)
Definition words_buf (ws : list string) : string :=
  match ws with
  | [] => EmptyString
  | _ => String.concat " " ws +:+ " "
  end.

(** The running shell on an operating system that answers [fork] with a
    pid that no slot of the table carries (a pid is not handed out again
    before its process is reaped). *)
Inductive fresh_step : shell -> shell -> Prop :=
  | fresh_eval s cl fork_r kill_r s' :
      waiting s = None ->
      Forall (fun j => pid j <> sys_val fork_r) (jobs s) ->
      eval cl fork_r kill_r s = Ret tt s' ->
      fresh_step s s'
  | fresh_waitfg s p :
      waiting s = Some p ->
      fgpid (jobs s) <> p ->
      fresh_step s (with_waiting None s)
  | fresh_sigchld s reaped s' :
      sigchld_handler reaped s = Ret tt s' ->
      fresh_step s s'
  | fresh_sigint s kill_r s' :
      sigint_handler kill_r s = Ret tt s' ->
      fresh_step s s'
  | fresh_sigtstp s kill_r s' :
      sigtstp_handler kill_r s = Ret tt s' ->
      fresh_step s s'.

(** No two slots hold live jobs with the same pid. *)
Definition pid_unique (js : list job_t) : Prop :=
  forall i i' j j',
    js !! i = Some j -> js !! i' = Some j' ->
    live j -> pid j = pid j' -> i = i'.





(** * Properties *)

(** ** C integers and strings *)

Lemma to_int_range z : INT_MIN <= to_int z <= INT_MAX.
Proof.
  unfold to_int, INT_MIN, INT_MAX.
  pose proof (Z.mod_pos_bound (z + 2 ^ 31) (2 ^ 32) eq_refl). lia.
Qed.

Lemma to_int_small z : INT_MIN <= z <= INT_MAX -> to_int z = z.
Proof.
  unfold to_int, INT_MIN, INT_MAX. intros Hz.
  rewrite Z.mod_small; lia.
Qed.

Lemma string_app_assoc (a b c : string) : (a +:+ b) +:+ c = a +:+ (b +:+ c).
Proof.
  induction a as [|x a IH]; [reflexivity |].
  change (String x ((a +:+ b) +:+ c) = String x (a +:+ (b +:+ c))).
  now rewrite IH.
Qed.

Lemma string_app_nil_r (a : string) : a +:+ EmptyString = a.
Proof.
  induction a as [|x a IH]; [reflexivity |].
  change (String x (a +:+ EmptyString) = String x a). now rewrite IH.
Qed.

(** ** parseline *)

Lemma strchr_shorter c buf tok rest :
  strchr c buf = Some (tok, rest) -> (String.length rest < String.length buf)%nat.
Proof.
  revert tok. induction buf as [| a r IH]; intros tok; cbn; [discriminate |].
  destruct (Ascii.eqb a c).
  - intros [= _ <-]. lia.
  - destruct (strchr c r) as [[tok' rest'] |]; [| discriminate].
    intros [= _ <-]. specialize (IH tok' eq_refl). lia.
Qed.

Lemma skip_spaces_length buf :
  (String.length (skip_spaces buf) <= String.length buf)%nat.
Proof.
  induction buf as [| a r IH]; [reflexivity |].
  destruct a as [[] [] [] [] [] [] [] []]; cbn in *; lia.
Qed.

Lemma find_delim_shorter buf tok rest :
  find_delim buf = Some (tok, rest) -> (String.length rest < String.length buf)%nat.
Proof.
  destruct buf as [| a r]; [discriminate |].
  destruct a as [[] [] [] [] [] [] [] []];
    intros Hd; apply strchr_shorter in Hd; cbn in *; lia.
Qed.

(** The rounds given to [build_argv] by [parseline] are enough: more
    rounds find the same arguments. *)
Lemma build_argv_enough n m buf :
  (String.length buf <= n)%nat -> (String.length buf <= m)%nat ->
  build_argv n buf = build_argv m buf.
Proof.
  revert m buf. induction n as [| n IH]; intros m buf Hn Hm.
  - destruct buf; [| cbn in Hn; lia]. now destruct m.
  - destruct m as [| m].
    + destruct buf; [reflexivity | cbn in Hm; lia].
    + cbn. destruct (find_delim buf) as [[tok rest] |] eqn:Hd; [| reflexivity].
      apply find_delim_shorter in Hd. pose proof (skip_spaces_length rest).
      f_equal. apply IH; lia.
Qed.

Example parseline_background :
  parseline ("sleep 5 &" +:+ NL) = Some (1, ["sleep"; "5"]).
Proof. reflexivity. Qed.

Example parseline_quoted :
  parseline ("  /bin/echo 'a b'  c" +:+ NL) = Some (0, ["/bin/echo"; "a b"; "c"]).
Proof. reflexivity. Qed.

Example parseline_blank : parseline ("   " +:+ NL) = Some (-1, []).
Proof. reflexivity. Qed.

(** ** Unfolding computations *)

Ltac munfold :=
  unfold unix_error, skip, printf, waitfg, exit, fault, modify, gets,
         mbind, mret, M_bind, M_ret in *.

Lemma prints_only_intro msg s :
  prints_only msg s (Ret tt (with_out (out s +:+ msg) s)).
Proof. eexists; repeat split; reflexivity. Qed.

Lemma with_out_id s : with_out (out s) s = s.
Proof. now destruct s. Qed.

(** ** The job table: failure leaves no trace *)

Lemma addjob_invalid p st cl s : p < 1 -> addjob p st cl s = Ret 0 s.
Proof.
  intros Hp. unfold addjob.
  destruct (Z.ltb_spec p 1); [reflexivity | lia].
Qed.

Lemma deletejob_invalid p s : p < 1 -> deletejob p s = Ret 0 s.
Proof.
  intros Hp. unfold deletejob.
  destruct (Z.ltb_spec p 1); [reflexivity | lia].
Qed.

Lemma deletejob_absent p s :
  list_find (fun j => pid j = p) (jobs s) = None -> deletejob p s = Ret 0 s.
Proof.
  intros Hnone. unfold deletejob.
  destruct (p <? 1); [reflexivity |].
  munfold. now rewrite Hnone.
Qed.

(** C9: with a pid below 1, [addjob] and [deletejob] return 0 and change
    nothing; with a pid that no live job carries, [deletejob] returns 0
    and leaves every slot and the counter [nextjid] as they were. *)
Theorem addjob_deletejob_failure_atomic (s : shell) (p st : Z) (cl : string) :
  (p < 1 -> addjob p st cl s = Ret 0 s /\ deletejob p s = Ret 0 s) /\
  ((forall j, j ∈ jobs s -> live j -> pid j <> p) -> deletejob p s = Ret 0 s).
Proof.
  split.
  - intros Hp. split; [now apply addjob_invalid | now apply deletejob_invalid].
  - intros Hfree.
    destruct (Z.lt_ge_cases p 1) as [Hp | Hp]; [now apply deletejob_invalid |].
    apply deletejob_absent, list_find_None, Forall_forall.
    intros j Hj Heq. apply (Hfree j Hj); [unfold live; lia | exact Heq].
Qed.

Lemma addjob_deletejob_failure_atomic_witness :
  (addjob 0 BG "ls" (boot 0) = Ret 0 (boot 0) /\
   deletejob 0 (boot 0) = Ret 0 (boot 0)) /\
  deletejob 7 (boot 0) = Ret 0 (boot 0).
Proof.
  destruct (addjob_deletejob_failure_atomic (boot 0) 0 BG "ls") as [H _].
  destruct (addjob_deletejob_failure_atomic (boot 0) 7 BG "ls") as [_ H'].
  split.
  - apply H. lia.
  - apply H'. intros j Hj Hlive. exfalso. apply Hlive.
    vm_compute in Hj.
    repeat (apply elem_of_cons in Hj as [-> | Hj]; [reflexivity |]).
    now apply elem_of_nil in Hj.
Defined.

(** ** bg and fg: validation of the target *)

Lemma marker_cases (a : string) :
  (exists d, a = String "%" d) \/
  (first_char a <> Some "%"%char /\ numeric_part a = a /\
   (forall js, bgfg_target js a = if isnumber a then getjobpid js (atoi a) else None) /\
   (forall argv0 rest kill_r s,
       do_bgfg (argv0 :: a :: rest) kill_r s = do_bgfg_pid argv0 a kill_r s)).
Proof.
  destruct a as [|c d].
  - right. repeat split; try reflexivity. discriminate.
  - destruct c as [[] [] [] [] [] [] [] []];
      first [ left; eexists; reflexivity
            | right; repeat split; try reflexivity; discriminate ].
Qed.

Lemma do_bgfg_job_wrong_state (isbg : bool) (i : nat) (j : job_t) kill_r s :
  jobs s !! i = Some j ->
  (isbg = true -> state j <> ST ->
   prints_only ("bg error - Job is not STOPPED." +:+ NL) s
     (do_bgfg_job isbg (Some i) kill_r s)) /\
  (isbg = false -> state j <> ST -> state j <> BG ->
   prints_only ("fg error - Job is not STOPPED or in BACKGROUND." +:+ NL) s
     (do_bgfg_job isbg (Some i) kill_r s)).
Proof.
  intros Hj. unfold do_bgfg_job, deref. munfold. cbn. rewrite Hj.
  split.
  - intros -> Hst. destruct (Z.eqb_spec (state j) ST); [contradiction |].
    cbn. apply prints_only_intro.
  - intros -> Hst Hbg.
    destruct (Z.eqb_spec (state j) ST); [contradiction |].
    destruct (Z.eqb_spec (state j) BG); [contradiction |].
    cbn. apply prints_only_intro.
Qed.

Lemma bgfg_target_run (argv0 a : string) rest kill_r s i :
  bgfg_target (jobs s) a = Some i ->
  do_bgfg (argv0 :: a :: rest) kill_r s =
  do_bgfg_job (bool_decide (argv0 = "bg")) (Some i) kill_r s.
Proof.
  destruct (marker_cases a) as [[d ->] | (_ & _ & Htarget & Hrun)].
  - cbn. destruct (isnumber d); [| discriminate]. intros Hi.
    munfold. cbn. now rewrite Hi.
  - rewrite Htarget, Hrun. unfold do_bgfg_pid. munfold.
    destruct (isnumber a); [| discriminate]. intros Hi. cbn. now rewrite Hi.
Qed.

(** C6: [bg] on a job that is not stopped, and [fg] on a job that is
    neither stopped nor in the background, print their diagnostic and do
    nothing else: no signal is sent and the job table is unchanged. *)
Theorem do_bgfg_state_precondition
    (argv0 a : string) (rest : list string) (kill_r : sysret) (s : shell)
    (i : nat) (j : job_t) :
  bgfg_target (jobs s) a = Some i ->
  jobs s !! i = Some j ->
  (argv0 = "bg" -> state j <> ST ->
   prints_only ("bg error - Job is not STOPPED." +:+ NL) s
     (do_bgfg (argv0 :: a :: rest) kill_r s)) /\
  (argv0 = "fg" -> state j <> ST -> state j <> BG ->
   prints_only ("fg error - Job is not STOPPED or in BACKGROUND." +:+ NL) s
     (do_bgfg (argv0 :: a :: rest) kill_r s)).
Proof.
  intros Htarget Hj.
  rewrite (bgfg_target_run _ _ _ _ _ _ Htarget).
  destruct (do_bgfg_job_wrong_state (bool_decide (argv0 = "bg")) i j kill_r s Hj)
    as [Hbg Hfg].
  split.
  - intros -> Hst. now apply Hbg.
  - intros -> Hst Hb. now apply Hfg.
Qed.

Lemma do_bgfg_state_precondition_witness :
  prints_only ("bg error - Job is not STOPPED." +:+ NL) one_bg
    (do_bgfg ["bg"; "%1"] ok one_bg) /\
  prints_only ("fg error - Job is not STOPPED or in BACKGROUND." +:+ NL) one_fg
    (do_bgfg ["fg"; "100"] ok one_fg).
Proof.
  split.
  - destruct (do_bgfg_state_precondition "bg" "%1" [] ok one_bg 0
                (Job 100 1 BG ("sleep 5 &" +:+ NL))) as [H _];
      [reflexivity | reflexivity |].
    apply H; [reflexivity | discriminate].
  - destruct (do_bgfg_state_precondition "fg" "100" [] ok one_fg 0
                (Job 100 1 FG ("sleep 5" +:+ NL))) as [_ H];
      [reflexivity | reflexivity |].
    apply H; [reflexivity | discriminate | discriminate].
Defined.

(** C7: [do_bgfg] checks, in this order, that a target is given, that it
    is numeric, and that it names a job (by job id after [%], by pid
    otherwise); the first check that fails prints its own diagnostic and
    the command does nothing else. *)
Theorem do_bgfg_validation_order (argv0 : string) (kill_r : sysret) (s : shell) :
  prints_only (argv0 +:+ " command requires PID or %jobid argument" +:+ NL) s
    (do_bgfg [argv0] kill_r s) /\
  (forall a rest, isnumber (numeric_part a) = false ->
     prints_only (argv0 +:+ ": argument must be a PID or %jobid" +:+ NL) s
       (do_bgfg (argv0 :: a :: rest) kill_r s)) /\
  (forall d rest, isnumber d = true -> getjobjid (jobs s) (atoi d) = None ->
     prints_only ("no such job" +:+ NL) s
       (do_bgfg (argv0 :: String "%" d :: rest) kill_r s)) /\
  (forall a rest, first_char a <> Some "%"%char -> isnumber a = true ->
     getjobpid (jobs s) (atoi a) = None ->
     prints_only ("no such process" +:+ NL) s
       (do_bgfg (argv0 :: a :: rest) kill_r s)) /\
  (forall fork_r,
     prints_only ("bg command requires PID or %jobid argument" +:+ NL) s
       (eval ("bg" +:+ NL) fork_r kill_r s)).
Proof.
  repeat split.
  - apply prints_only_intro.
  - intros a rest Hnum.
    destruct (marker_cases a) as [[d ->] | (_ & Hpart & _ & Hrun)].
    + cbn in Hnum. cbn. munfold. rewrite Hnum. apply prints_only_intro.
    + rewrite Hpart in Hnum. rewrite Hrun. unfold do_bgfg_pid. munfold.
      rewrite Hnum. apply prints_only_intro.
  - intros d rest Hnum Hnone. cbn. munfold. rewrite Hnum, Hnone.
    apply prints_only_intro.
  - intros a rest Hbare Hnum Hnone.
    destruct (marker_cases a) as [[d ->] | (_ & _ & _ & Hrun)].
    + now contradiction Hbare.
    + rewrite Hrun. unfold do_bgfg_pid. munfold. rewrite Hnum, Hnone.
      apply prints_only_intro.
  - intros fork_r. apply prints_only_intro.
Qed.

Lemma do_bgfg_validation_order_witness :
  prints_only ("bg: argument must be a PID or %jobid" +:+ NL) one_bg
    (do_bgfg ["bg"; "%x1"] ok one_bg) /\
  prints_only ("no such job" +:+ NL) one_bg (do_bgfg ["fg"; "%3"] ok one_bg) /\
  prints_only ("no such process" +:+ NL) one_bg (do_bgfg ["bg"; "42"] ok one_bg).
Proof.
  split; [| split].
  - destruct (do_bgfg_validation_order "bg" ok one_bg) as (_ & H & _).
    apply (H "%x1" []). reflexivity.
  - destruct (do_bgfg_validation_order "fg" ok one_bg) as (_ & _ & H & _).
    apply (H "3" []); reflexivity.
  - destruct (do_bgfg_validation_order "bg" ok one_bg) as (_ & _ & _ & H & _).
    apply (H "42" []); [discriminate | reflexivity | reflexivity].
Defined.

(** C10: [isnumber] accepts the empty string, so [bg %] and [fg %] pass
    the numeric check and are turned down by the job-id lookup, which
    finds no job 0, with the diagnostic [no such job]. *)
Theorem bare_marker_no_such_job (kill_r fork_r : sysret) (s : shell) :
  isnumber EmptyString = true /\
  atoi EmptyString = 0 /\
  getjobjid (jobs s) 0 = None /\
  prints_only ("no such job" +:+ NL) s (do_bgfg ["bg"; "%"] kill_r s) /\
  prints_only ("no such job" +:+ NL) s (do_bgfg ["fg"; "%"] kill_r s) /\
  prints_only ("no such job" +:+ NL) s (eval ("bg %" +:+ NL) fork_r kill_r s) /\
  prints_only ("no such job" +:+ NL) s (eval ("fg %" +:+ NL) fork_r kill_r s).
Proof.
  repeat split; apply prints_only_intro.
Qed.

(** ** The jobs built-in *)

Lemma with_out_with_out a b s : with_out a (with_out b s) = with_out a s.
Proof. reflexivity. Qed.

Lemma listing_cons j js :
  listing (j :: js) = if decide (shown j) then job_line j +:+ listing js else listing js.
Proof.
  unfold listing. rewrite filter_cons. now destruct (decide (shown j)).
Qed.

Lemma listbgjobs_from_spec js s :
  listbgjobs_from js s = Ret tt (with_out (out s +:+ listing js) s).
Proof.
  revert s. induction js as [|j r IH]; intros s.
  - cbn. unfold listing. cbn. now rewrite string_app_nil_r, with_out_id.
  - rewrite listing_cons. cbn [listbgjobs_from]. unfold shown, live.
    destruct (Z.eqb_spec (pid j) 0) as [Hp | Hp].
    { munfold. rewrite IH. destruct (decide _) as [[Hl _] | _]; [contradiction | reflexivity]. }
    destruct (Z.eqb_spec (state j) BG) as [Hb | Hb].
    { munfold. cbn. rewrite IH. cbn.
      destruct (decide _) as [_ | Hn]; [| exfalso; apply Hn; auto].
      unfold job_line. rewrite Hb. cbn.
      now rewrite !string_app_assoc. }
    destruct (Z.eqb_spec (state j) ST) as [Ht | Ht].
    { munfold. cbn. rewrite IH. cbn.
      destruct (decide _) as [_ | Hn]; [| exfalso; apply Hn; auto].
      unfold job_line. rewrite Ht. cbn.
      now rewrite !string_app_assoc. }
    munfold. rewrite IH.
    destruct (decide _) as [[_ [Hs | Hs]] | _]; [contradiction.. | reflexivity].
Qed.

(** C8: the [jobs] built-in prints exactly the live jobs that are in the
    background or stopped, in slot order, one line each with job id,
    pid, [Running] or [Stopped] and the command line; a foreground job is
    left out.  It changes nothing else. *)
Theorem jobs_builtin_listing (rest : list string) (fork_r kill_r : sysret) (s : shell) :
  listbgjobs s = Ret tt (with_out (out s +:+ listing (jobs s)) s) /\
  builtin_cmd ("jobs" :: rest) kill_r s = Ret 1 (with_out (out s +:+ listing (jobs s)) s) /\
  eval ("jobs" +:+ NL) fork_r kill_r s = Ret tt (with_out (out s +:+ listing (jobs s)) s) /\
  listing (jobs s) =
    foldr (fun j text => job_line j +:+ text) EmptyString
      (filter (fun j => live j /\ (state j = BG \/ state j = ST)) (jobs s)).
Proof.
  assert (H : listbgjobs s = Ret tt (with_out (out s +:+ listing (jobs s)) s)).
  { unfold listbgjobs. munfold. apply listbgjobs_from_spec. }
  assert (Hb : forall args, builtin_cmd ("jobs" :: args) kill_r s
                 = Ret 1 (with_out (out s +:+ listing (jobs s)) s)).
  { intros args.
    change (builtin_cmd ("jobs" :: args) kill_r s)
      with (mbind (fun _ => mret 1) listbgjobs s).
    unfold mbind, M_bind. now rewrite H. }
  repeat split.
  - exact H.
  - apply Hb.
  - unfold eval.
    change (parseline ("jobs" +:+ NL)) with (Some (0, ["jobs"])).
    cbv beta iota. change (0 =? -1) with false. cbv iota.
    unfold mbind at 1, M_bind at 1. now rewrite Hb.
Qed.

Example jobs_builtin_example :
  listing [Job 100 1 BG ("sleep 5 &" +:+ NL); Job 0 0 UNDEF EmptyString;
           Job 102 3 FG ("cat" +:+ NL); Job 103 4 ST ("vi" +:+ NL)]
  = "[1] (100) Running sleep 5 &" +:+ NL +:+ "[4] (103) Stopped vi" +:+ NL.
Proof. reflexivity. Qed.

(** ** addjob and deletejob, case by case *)

Lemma addjob_ok p st cl s i j0 :
  1 <= p ->
  list_find (fun j => pid j = 0) (jobs s) = Some (i, j0) ->
  addjob p st cl s =
  Ret 1 (Shell (<[i := Job p (nextjid s) st cl]> (jobs s)) (next_after_add (nextjid s))
           (verbose s) (out s +:+ verbose_note s p cl) (sent s) (waiting s)).
Proof.
  intros Hp Hfree. unfold addjob, next_after_add, verbose_note.
  destruct (Z.ltb_spec p 1); [lia |].
  munfold. rewrite Hfree. cbn.
  destruct (to_int (nextjid s + 1) >? MAXJOBS); cbn;
    destruct (verbose s =? 0); cbn; unfold with_out, with_nextjid, with_jobs; cbn;
    now rewrite ?string_app_nil_r.
Qed.

Lemma addjob_full p st cl s :
  1 <= p ->
  list_find (fun j => pid j = 0) (jobs s) = None ->
  addjob p st cl s =
  Ret 0 (with_out (out s +:+ "Tried to create too many jobs" +:+ NL) s).
Proof.
  intros Hp Hfull. unfold addjob.
  destruct (Z.ltb_spec p 1); [lia |].
  munfold. now rewrite Hfull.
Qed.

Lemma deletejob_ok p s i j :
  1 <= p ->
  list_find (fun j => pid j = p) (jobs s) = Some (i, j) ->
  deletejob p s =
  Ret 1 (Shell (<[i := Job 0 0 UNDEF EmptyString]> (jobs s))
           (to_int (maxjid (<[i := Job 0 0 UNDEF EmptyString]> (jobs s)) + 1))
           (verbose s) (out s) (sent s) (waiting s)).
Proof.
  intros Hp Hfound. unfold deletejob.
  destruct (Z.ltb_spec p 1); [lia |].
  munfold. now rewrite Hfound.
Qed.

(** Every way [addjob] can end. *)
Lemma addjob_inv p st cl s :
  (addjob p st cl s = Ret 0 s /\ p < 1) \/
  (addjob p st cl s = Ret 0 (with_out (out s +:+ "Tried to create too many jobs" +:+ NL) s)
   /\ 1 <= p /\ list_find (fun j => pid j = 0) (jobs s) = None) \/
  (exists i j0,
      addjob p st cl s =
      Ret 1 (Shell (<[i := Job p (nextjid s) st cl]> (jobs s)) (next_after_add (nextjid s))
               (verbose s) (out s +:+ verbose_note s p cl) (sent s) (waiting s))
      /\ 1 <= p /\ list_find (fun j => pid j = 0) (jobs s) = Some (i, j0)).
Proof.
  destruct (Z.lt_ge_cases p 1) as [Hp | Hp].
  - left. split; [now apply addjob_invalid | exact Hp].
  - right. destruct (list_find (fun j => pid j = 0) (jobs s)) as [[i j0] |] eqn:Hfind.
    + right. exists i, j0. split; [now apply (addjob_ok _ _ _ _ _ j0) | auto].
    + left. split; [now apply addjob_full | auto].
Qed.

(** Every way [deletejob] can end. *)
Lemma deletejob_inv p s :
  deletejob p s = Ret 0 s \/
  (exists i j,
      deletejob p s =
      Ret 1 (Shell (<[i := Job 0 0 UNDEF EmptyString]> (jobs s))
               (to_int (maxjid (<[i := Job 0 0 UNDEF EmptyString]> (jobs s)) + 1))
               (verbose s) (out s) (sent s) (waiting s))
      /\ 1 <= p /\ list_find (fun j => pid j = p) (jobs s) = Some (i, j)).
Proof.
  destruct (Z.lt_ge_cases p 1) as [Hp | Hp].
  - left. now apply deletejob_invalid.
  - destruct (list_find (fun j => pid j = p) (jobs s)) as [[i j] |] eqn:Hfind.
    + right. exists i, j. split; [now apply (deletejob_ok _ _ _ j) | auto].
    + left. now apply deletejob_absent.
Qed.

(** Looking up the slot just written, when no earlier slot matches. *)
Lemma list_find_insert_new (P : job_t -> Prop) `{forall j, Decision (P j)}
    (js : list job_t) (i : nat) (x : job_t) :
  (i < length js)%nat -> P x ->
  (forall k y, js !! k = Some y -> (k < i)%nat -> ~ P y) ->
  list_find P (<[i := x]> js) = Some (i, x).
Proof.
  intros Hi Hx Hbefore. apply list_find_Some. split; [| split].
  - now apply list_lookup_insert_eq.
  - exact Hx.
  - intros k y Hk Hlt. rewrite list_lookup_insert_ne in Hk by lia. eauto.
Qed.

Lemma list_find_index {A} (P : A -> Prop) `{forall x, Decision (P x)} l i x :
  list_find P l = Some (i, x) -> l !! i = Some x /\ P x /\ (i < length l)%nat.
Proof.
  intros Hf. apply list_find_Some in Hf as (Hl & Hx & _).
  repeat split; eauto using lookup_lt_Some.
Qed.

(** ** Job announcements *)

Lemma builtin_cmd_external argv0 args kill_r s :
  ~ is_builtin argv0 -> builtin_cmd (argv0 :: args) kill_r s = Ret 0 s.
Proof.
  unfold is_builtin, builtin_cmd. intros Hext.
  repeat case_bool_decide; try reflexivity; exfalso; apply Hext; auto.
Qed.

Lemma listjob_spec i j s :
  jobs s !! i = Some j ->
  listjob (Some i) s = Ret tt (with_out (out s +:+ announce j) s).
Proof.
  intros Hj. unfold listjob, deref. munfold. cbn. now rewrite Hj.
Qed.

Lemma bg_resume isbg i j kill_r s :
  isbg = true ->
  jobs s !! i = Some j -> state j = ST -> 0 <= sys_val kill_r ->
  do_bgfg_job isbg (Some i) kill_r s =
  Ret tt (Shell (<[i := Job (pid j) (jid j) BG (cmdline j)]> (jobs s)) (nextjid s)
            (verbose s) (out s +:+ announce j)
            (sent s ++ [(to_int (- pid j), SIGCONT)]) (waiting s)).
Proof.
  intros -> Hj Hst Hk. unfold do_bgfg_job, Kill, listjob, store_state, deref.
  munfold. cbn. rewrite Hj, Hst. cbn.
  destruct (Z.ltb_spec (sys_val kill_r) 0); [lia |]. cbn.
  rewrite Hj. cbn. rewrite Hj. reflexivity.
Qed.

Lemma eval_external_eq cl bg argv0 args fork_r kill_r s :
  parseline cl = Some (bg, argv0 :: args) -> bg <> -1 -> ~ is_builtin argv0 ->
  eval cl fork_r kill_r s = eval_external cl bg fork_r s.
Proof.
  intros Hparse Hbg Hext. unfold eval, eval_external. rewrite Hparse.
  destruct (Z.eqb_spec bg (-1)); [contradiction |].
  unfold mbind at 1, M_bind at 1. now rewrite builtin_cmd_external.
Qed.

Lemma getjobpid_insert_new js i p n st cl :
  1 <= p -> (i < length js)%nat ->
  (forall j, j ∈ js -> pid j <> p) ->
  getjobpid (<[i := Job p n st cl]> js) p = Some i.
Proof.
  intros Hp Hi Hfresh. unfold getjobpid.
  destruct (Z.ltb_spec p 1); [lia |].
  rewrite (list_find_insert_new (fun j => pid j = p) js i (Job p n st cl));
    [reflexivity | exact Hi | reflexivity |].
  intros k y Hk _. apply Hfresh. eapply list_elem_of_lookup_2, Hk.
Qed.

(** C5 (as the code has it): a job-announcement line, printed when a
    background job is spawned and when [bg] resumes a job, reads
    [[<job_id>] (<process_id>) <original_command_text>]; it carries no
    state word. *)
Theorem job_announcement_format (s : shell) (kill_r : sysret) :
  (forall cl argv0 args fork_r i j0,
      parseline cl = Some (1, argv0 :: args) -> ~ is_builtin argv0 ->
      0 < sys_val fork_r ->
      list_find (fun j => pid j = 0) (jobs s) = Some (i, j0) ->
      (forall j, j ∈ jobs s -> pid j <> sys_val fork_r) ->
      exists s',
        eval cl fork_r kill_r s = Ret tt s' /\
        jobs s' !! i = Some (Job (sys_val fork_r) (nextjid s) BG cl) /\
        out s' = out s +:+ verbose_note s (sys_val fork_r) cl
                   +:+ "[" +:+ fmt_d (nextjid s) +:+ "] ("
                   +:+ fmt_d (sys_val fork_r) +:+ ") " +:+ cl) /\
  (forall a rest i j,
      bgfg_target (jobs s) a = Some i -> jobs s !! i = Some j ->
      state j = ST -> 0 <= sys_val kill_r ->
      exists s',
        do_bgfg ("bg" :: a :: rest) kill_r s = Ret tt s' /\
        jobs s' = <[i := Job (pid j) (jid j) BG (cmdline j)]> (jobs s) /\
        sent s' = sent s ++ [(to_int (- pid j), SIGCONT)] /\
        out s' = out s +:+ "[" +:+ fmt_d (jid j) +:+ "] (" +:+ fmt_d (pid j) +:+ ") "
                   +:+ cmdline j).
Proof.
  split.
  - intros cl argv0 args fork_r i j0 Hparse Hext Hp Hfree Hfresh.
    rewrite (eval_external_eq _ _ _ _ _ _ _ Hparse) by (lia || exact Hext).
    unfold eval_external. cbv zeta.
    destruct (Z.ltb_spec (sys_val fork_r) 0); [lia |].
    destruct (Z.eqb_spec (sys_val fork_r) 0); [lia |].
    unfold mbind at 1, M_bind at 1.
    rewrite (addjob_ok _ _ _ _ i j0) by (lia || exact Hfree).
    apply list_find_index in Hfree as (_ & _ & Hi).
    munfold. cbn.
    rewrite getjobpid_insert_new by (lia || assumption).
    erewrite listjob_spec by (cbn; now apply list_lookup_insert_eq).
    eexists. split; [reflexivity |]. cbn. split.
    + now apply list_lookup_insert_eq.
    + unfold announce. cbn. now rewrite !string_app_assoc.
  - intros a rest i j Htarget Hj Hst Hk.
    rewrite (bgfg_target_run _ _ _ _ _ _ Htarget).
    rewrite (bg_resume _ i j) by (auto using bool_decide_eq_true_2).
    eexists. split; [reflexivity |]. cbn. repeat split.
Qed.

Lemma job_announcement_format_witness :
  (exists s',
      eval ("sleep 5 &" +:+ NL) (forked 100) ok (boot 0) = Ret tt s' /\
      jobs s' !! 0%nat = Some (Job 100 1 BG ("sleep 5 &" +:+ NL)) /\
      out s' = "[1] (100) sleep 5 &" +:+ NL) /\
  (exists s',
      do_bgfg ["bg"; "%1"] ok (after (sigtstp_handler ok one_fg)) = Ret tt s' /\
      jobs s' = <[0%nat := Job 100 1 BG ("sleep 5" +:+ NL)]> (jobs one_fg) /\
      sent s' = [(-100, SIGTSTP); (-100, SIGCONT)] /\
      out s' = "[1] (100) sleep 5" +:+ NL).
Proof.
  split.
  - destruct (job_announcement_format (boot 0) ok) as [H _].
    apply (H ("sleep 5 &" +:+ NL) "sleep" ["5"] (forked 100) 0%nat (Job 0 0 0 EmptyString));
      [reflexivity | | reflexivity | reflexivity |].
    + intros [H' | [H' | [H' | H']]]; discriminate H'.
    + intros j Hj. vm_compute in Hj.
      repeat (apply elem_of_cons in Hj as [-> | Hj]; [discriminate |]).
      now apply elem_of_nil in Hj.
  - destruct (job_announcement_format (after (sigtstp_handler ok one_fg)) ok) as [_ H].
    apply (H "%1" [] 0%nat (Job 100 1 ST ("sleep 5" +:+ NL)));
      [reflexivity | reflexivity | reflexivity | discriminate].
Defined.

(** C5 (as stated) fails: spawning [sleep 5 &] as job 1 announces
    [[1] (100) sleep 5 &], without the word [Running]. *)
Lemma job_announcement_counterexample :
  eval ("sleep 5 &" +:+ NL) (forked 100) ok (boot 0) = Ret tt one_bg /\
  out one_bg = "[1] (100) sleep 5 &" +:+ NL /\
  out one_bg <> "[1] (100) Running sleep 5 &" +:+ NL.
Proof.
  split; [reflexivity |]. split; [reflexivity |].
  vm_compute. discriminate.
Qed.

(** ** The child-status handler *)

Lemma deletejob_without_job p s :
  exists r s', deletejob p s = Ret r s' /\
    jobs s' = without_job p (jobs s) /\ out s' = out s /\
    sent s' = sent s /\ waiting s' = waiting s.
Proof.
  unfold without_job, getjobpid.
  destruct (deletejob_inv p s) as [H0 | (i & j & H1 & Hp & Hfind)].
  - exists 0, s. split; [exact H0 |]. repeat split.
    unfold deletejob in H0. destruct (p <? 1); [reflexivity |].
    munfold. destruct (list_find _ _) as [[i j] |]; [discriminate | reflexivity].
  - eexists _, _. split; [exact H1 |]. cbn.
    destruct (Z.ltb_spec p 1); [lia |]. rewrite Hfind. repeat split.
Qed.

Lemma sigchld_handler_one p st s :
  0 < p -> sigchld_handler [(p, st)] s = sigchld_child p st s.
Proof.
  intros Hp. cbn. destruct (Z.gtb_spec p 0); [| lia].
  munfold. now destruct (sigchld_child p st s) as [[] ?| | |].
Qed.

(** C2 (as the code has it): for a child that exited or was killed by a
    signal the handler removes its job (after printing, in the second
    case, a notice with job id, pid and signal number); for a child that
    stopped it prints the notice and leaves the table as it is, the
    job's state included. *)
Theorem sigchld_handler_effect (s : shell) (p : Z) :
  0 < p ->
  (forall code, exists s',
      sigchld_handler [(p, WExited code)] s = Ret tt s' /\
      jobs s' = without_job p (jobs s) /\
      out s' = out s /\ sent s' = sent s) /\
  (forall sig, exists s',
      sigchld_handler [(p, WSignaled sig)] s = Ret tt s' /\
      jobs s' = without_job p (jobs s) /\
      out s' = out s +:+ "Job [" +:+ fmt_d (pid2jid (jobs s) p) +:+ "] (" +:+ fmt_d p
                 +:+ ") terminated by signal " +:+ fmt_d sig +:+ NL /\
      sent s' = sent s) /\
  (forall sig, exists s',
      sigchld_handler [(p, WStopped sig)] s = Ret tt s' /\
      jobs s' = jobs s /\
      out s' = out s +:+ "Job [" +:+ fmt_d (pid2jid (jobs s) p) +:+ "] (" +:+ fmt_d p
                 +:+ ") stopped by signal " +:+ fmt_d sig +:+ NL /\
      sent s' = sent s /\ nextjid s' = nextjid s).
Proof.
  intros Hp. repeat split.
  - intros code. rewrite sigchld_handler_one by exact Hp.
    destruct (deletejob_without_job p s) as (r & s' & Hdel & Hjobs & Hout & Hsent & _).
    exists s'. unfold sigchld_child. munfold. cbn. rewrite Hdel. auto.
  - intros sig. rewrite sigchld_handler_one by exact Hp.
    unfold sigchld_child. munfold. cbn.
    set (s1 := with_out _ s).
    destruct (deletejob_without_job p s1) as (r & s' & Hdel & Hjobs & Hout & Hsent & _).
    exists s'. rewrite Hdel. auto.
  - intros sig. rewrite sigchld_handler_one by exact Hp.
    eexists. split; [reflexivity |]. repeat split.
Qed.

Lemma sigchld_handler_effect_witness :
  (exists s',
      sigchld_handler [(100, WExited 0)] one_bg = Ret tt s' /\
      jobs s' = jobs (boot 0) /\ out s' = out one_bg /\ sent s' = []) /\
  (exists s',
      sigchld_handler [(100, WSignaled 2)] one_fg = Ret tt s' /\
      jobs s' = jobs (boot 0) /\
      out s' = "Job [1] (100) terminated by signal 2" +:+ NL /\ sent s' = []) /\
  (exists s',
      sigchld_handler [(100, WStopped 20)] one_bg = Ret tt s' /\
      jobs s' = jobs one_bg /\
      out s' = out one_bg +:+ "Job [1] (100) stopped by signal 20" +:+ NL /\
      sent s' = [] /\ nextjid s' = 2).
Proof.
  split; [| split].
  - destruct (sigchld_handler_effect one_bg 100) as (H & _ & _); [reflexivity |].
    exact (H 0).
  - destruct (sigchld_handler_effect one_fg 100) as (_ & H & _); [reflexivity |].
    exact (H 2).
  - destruct (sigchld_handler_effect one_bg 100) as (_ & _ & H); [reflexivity |].
    exact (H 20).
Defined.

(** C2 (as stated) fails: a background job whose child stops stays in
    state [BG]; the handler does not write [ST]. *)
Lemma sigchld_stop_counterexample :
  exists s' j,
    sigchld_handler [(100, WStopped 20)] one_bg = Ret tt s' /\
    getjobpid (jobs s') 100 = Some 0%nat /\
    jobs s' !! 0%nat = Some j /\
    state j = BG /\ state j <> ST.
Proof.
  eexists _, _. split; [reflexivity |]. split; [reflexivity |].
  split; [reflexivity |]. split; [reflexivity | discriminate].
Qed.

(** ** What one move does to the job table *)

Lemma do_bgfg_job_tstep isbg job kill_r s s' :
  waiting s = None ->
  do_bgfg_job isbg job kill_r s = Ret tt s' -> tstep s s'.
Proof.
  intros Hw. unfold do_bgfg_job, Kill, listjob, store_state, deref. munfold. cbn.
  destruct job as [i |]; cbn; [| discriminate].
  destruct (jobs s !! i) as [j |] eqn:Hj; [| discriminate].
  destruct isbg; cbn.
  - destruct (state j =? ST); cbn.
    + destruct (sys_val kill_r <? 0); cbn; [discriminate |].
      rewrite Hj. cbn. rewrite Hj. intros [= <-].
      now apply (t_state _ _ i j BG).
    + intros [= <-]. now apply t_same.
  - destruct (_ || _); cbn.
    + destruct (sys_val kill_r <? 0); cbn; [discriminate |].
      rewrite Hj. cbn.
      rewrite list_lookup_insert_eq by eauto using lookup_lt_Some.
      intros [= <-]. now apply (t_fg _ _ i j).
    + intros [= <-]. now apply t_same.
Qed.

Lemma do_bgfg_tstep argv kill_r s s' :
  waiting s = None ->
  do_bgfg argv kill_r s = Ret tt s' -> tstep s s'.
Proof.
  intros Hw. destruct argv as [| argv0 [| a rest]]; [discriminate | |].
  - intros [= <-]. now apply t_same.
  - destruct (marker_cases a) as [[d ->] | (_ & _ & _ & Hrun)].
    + cbn. munfold. destruct (isnumber d); cbn.
      * destruct (getjobjid _ _) eqn:Hjob.
        -- now apply do_bgfg_job_tstep.
        -- intros [= <-]. now apply t_same.
      * intros [= <-]. now apply t_same.
    + rewrite Hrun. unfold do_bgfg_pid. munfold. destruct (isnumber a); cbn.
      * destruct (getjobpid _ _) eqn:Hjob.
        -- now apply do_bgfg_job_tstep.
        -- intros [= <-]. now apply t_same.
      * intros [= <-]. now apply t_same.
Qed.

Lemma deletejob_tstep p s r s' :
  deletejob p s = Ret r s' -> tstep s s'.
Proof.
  destruct (deletejob_inv p s) as [-> | (i & j & -> & _ & Hfind)]; intros [= <- <-].
  - now apply t_same.
  - apply list_find_index in Hfind as (Hj & _ & _).
    now apply (t_clear _ _ i j).
Qed.

Lemma tstep_out s o : tstep s (with_out o s).
Proof. now apply t_same. Qed.

Lemma sigchld_child_tsteps p st s s' :
  sigchld_child p st s = Ret tt s' -> rtc tstep s s'.
Proof.
  unfold sigchld_child. munfold. destruct st; cbn.
  - destruct (deletejob p s) as [r s1 | | |] eqn:Hdel; [| discriminate..].
    intros [= <-]. apply rtc_once. eapply deletejob_tstep, Hdel.
  - set (s1 := with_out _ s).
    destruct (deletejob p s1) as [r s2 | | |] eqn:Hdel; [| discriminate..].
    intros [= <-]. eapply rtc_l; [apply (tstep_out s) |].
    apply rtc_once. eapply deletejob_tstep, Hdel.
  - intros [= <-]. apply rtc_once, tstep_out.
Qed.

Lemma sigchld_handler_tsteps reaped s s' :
  sigchld_handler reaped s = Ret tt s' -> rtc tstep s s'.
Proof.
  revert s. induction reaped as [| [p st] more IH]; intros s; cbn.
  - intros [= <-]. apply rtc_refl.
  - destruct (p >? 0).
    + unfold mbind, M_bind.
      destruct (sigchld_child p st s) as [[] s1 | | |] eqn:Hchild; [| discriminate..].
      intros Hmore. etrans; [eapply sigchld_child_tsteps, Hchild | now apply IH].
    + intros [= <-]. apply rtc_refl.
Qed.

Lemma sigint_handler_tstep kill_r s s' :
  sigint_handler kill_r s = Ret tt s' -> tstep s s'.
Proof.
  unfold sigint_handler, Kill. munfold. cbn.
  destruct (fgpid (jobs s) =? 0); [intros [= <-]; now apply t_same |].
  destruct (sys_val kill_r <? 0); cbn; [discriminate |].
  intros [= <-]. now apply t_same.
Qed.

Lemma sigtstp_handler_tstep kill_r s s' :
  sigtstp_handler kill_r s = Ret tt s' -> tstep s s'.
Proof.
  unfold sigtstp_handler, Kill, store_state, deref. munfold. cbn.
  destruct (fgpid (jobs s) =? 0); [intros [= <-]; now apply t_same |].
  destruct (sys_val kill_r <? 0); cbn; [discriminate |].
  destruct (getjobpid (jobs s) (fgpid (jobs s))) as [i |]; cbn; [| discriminate].
  destruct (jobs s !! i) as [j |] eqn:Hj; [| discriminate].
  intros [= <-]. now apply (t_state _ _ i j ST).
Qed.

Lemma listbgjobs_tstep s s' : listbgjobs s = Ret tt s' -> tstep s s'.
Proof.
  unfold listbgjobs. munfold. rewrite listbgjobs_from_spec.
  intros [= <-]. apply tstep_out.
Qed.

Lemma builtin_cmd_tstep argv kill_r s b s' :
  waiting s = None ->
  builtin_cmd argv kill_r s = Ret b s' -> tstep s s'.
Proof.
  intros Hw. unfold builtin_cmd. destruct argv as [| argv0 args]; [discriminate |].
  repeat case_bool_decide; try discriminate.
  - unfold mbind, M_bind.
    destruct (do_bgfg _ _ s) as [[] s1 | | |] eqn:Hdo; [| discriminate..].
    intros [= <- <-]. eapply do_bgfg_tstep; eauto.
  - unfold mbind, M_bind.
    destruct (do_bgfg _ _ s) as [[] s1 | | |] eqn:Hdo; [| discriminate..].
    intros [= <- <-]. eapply do_bgfg_tstep; eauto.
  - unfold mbind, M_bind.
    destruct (listbgjobs s) as [[] s1 | | |] eqn:Hl; [| discriminate..].
    intros [= <- <-]. now apply listbgjobs_tstep.
  - intros [= <- <-]. now apply t_same.
Qed.

(** An external command adds at most one job and may start a wait. *)
Lemma eval_external_tstep cl bg fork_r s s' :
  waiting s = None ->
  eval_external cl bg fork_r s = Ret tt s' -> tstep s s'.
Proof.
  intros Hw. unfold eval_external. cbv zeta.
  destruct (Z.ltb_spec (sys_val fork_r) 0); [discriminate |].
  destruct (Z.eqb_spec (sys_val fork_r) 0); [discriminate |].
  set (p := sys_val fork_r) in *.
  unfold mbind at 1, M_bind at 1.
  destruct (addjob_inv p (bg + 1) cl s)
    as [[-> ?] | [(-> & Hp & Hfull) | (i & j0 & -> & Hp & Hfree)]]; [lia | |].
  - (* table full *)
    destruct (Z.eqb_spec bg 0) as [-> | Hbg].
    + intros [= <-]. now apply (t_wait _ _ p).
    + munfold. cbn. unfold listjob, deref. munfold. cbn.
      destruct (option_bind _ _ _ _) as [j |]; [| discriminate].
      intros [= <-]. now apply t_same.
  - (* job added *)
    destruct (Z.eqb_spec bg 0) as [-> | Hbg].
    + intros [= <-]. now apply (t_add _ _ i j0 p FG cl).
    + munfold. cbn. unfold listjob, deref. munfold. cbn.
      destruct (option_bind _ _ _ _) as [j |]; [| discriminate].
      intros [= <-]. apply (t_add _ _ i j0 p (bg + 1) cl); try easy.
      cbn. rewrite Hw. destruct (Z.eqb_spec (bg + 1) FG) as [Heq | _]; [| reflexivity].
      unfold FG in Heq. lia.
Qed.

Lemma eval_tsteps cl fork_r kill_r s s' :
  waiting s = None ->
  eval cl fork_r kill_r s = Ret tt s' -> rtc tstep s s'.
Proof.
  intros Hw. unfold eval.
  destruct (parseline cl) as [[bg argv] |]; [| discriminate].
  destruct (bg =? -1); [intros [= <-]; apply rtc_refl |].
  unfold mbind at 1, M_bind at 1.
  destruct (builtin_cmd argv kill_r s) as [b s1 | | |] eqn:Hb; [| discriminate..].
  destruct (Z.eqb_spec b 0) as [-> | Hne].
  - assert (s1 = s) as ->.
    { unfold builtin_cmd in Hb. destruct argv; [discriminate |].
      repeat case_bool_decide; try discriminate.
      - unfold mbind, M_bind in Hb. destruct (do_bgfg _ _ _) as [[] ?| | |]; discriminate.
      - unfold mbind, M_bind in Hb. destruct (do_bgfg _ _ _) as [[] ?| | |]; discriminate.
      - unfold mbind, M_bind in Hb. destruct (listbgjobs _) as [[] ?| | |]; discriminate.
      - now injection Hb. }
    intros Hext. apply rtc_once. eapply eval_external_tstep; eauto.
  - intros [= <-]. apply rtc_once. eapply builtin_cmd_tstep; eauto.
Qed.

Lemma step_tsteps s s' : step s s' -> rtc tstep s s'.
Proof.
  destruct 1 as [s cl fr kr s' Hw He | s p Hw Hfg | s reaped s' Hh
                 | s kr s' Hh | s kr s' Hh].
  - eapply eval_tsteps; eauto.
  - apply rtc_once. now apply (t_wake _ _ p).
  - eapply sigchld_handler_tsteps; eauto.
  - apply rtc_once. eapply sigint_handler_tstep; eauto.
  - apply rtc_once. eapply sigtstp_handler_tstep; eauto.
Qed.

Lemma reachable_tsteps s : reachable s -> exists v, rtc tstep (boot v) s.
Proof.
  intros [v Hrun]. exists v.
  induction Hrun as [| s1 s2 s3 Hstep _ IH]; [apply rtc_refl |].
  etrans; [eapply step_tsteps, Hstep | exact IH].
Qed.

(** ** Invariants of the running shell *)

(** A property that holds when the shell starts and that every change of
    the table keeps holds in every state the shell reaches. *)
Section Invariant.

Variable P : shell -> Prop.
Hypothesis P_boot : forall v, P (boot v).
Hypothesis P_tstep : forall s s', P s -> tstep s s' -> P s'.

Lemma reachable_invariant s : reachable s -> P s.
Proof.
  intros Hs. destruct (reachable_tsteps s Hs) as [v Hrun]. clear Hs.
  pose proof (P_boot v) as Hboot. revert Hboot.
  induction Hrun as [| s1 s2 s3 H12 _ IH]; [auto |].
  intros H1. apply IH. eapply P_tstep; eauto.
Qed.

End Invariant.

Lemma boot_slot v k y : jobs (boot v) !! k = Some y -> y = Job 0 0 UNDEF EmptyString.
Proof.
  intros Hk. apply list_elem_of_lookup_2 in Hk. cbn in Hk.
  repeat (apply elem_of_cons in Hk as [-> | Hk]; [reflexivity |]).
  now apply elem_of_nil in Hk.
Qed.

Lemma fgpid_found js k y :
  js !! k = Some y -> state y = FG ->
  exists k' y', js !! k' = Some y' /\ state y' = FG /\ fgpid js = pid y'.
Proof.
  intros Hk Hy. unfold fgpid.
  destruct (list_find (fun j => state j = FG) js) as [[k' y'] |] eqn:Hfind.
  - apply list_find_index in Hfind as (Hk' & Hy' & _). eauto.
  - exfalso. eapply list_find_None, Forall_forall in Hfind.
    + apply Hfind, Hy.
    + eapply list_elem_of_lookup_2, Hk.
Qed.

Lemma fg_discipline_tstep s s' : fg_discipline s -> tstep s s' -> fg_discipline s'.
Proof.
  intros [Huniq Hwait] Hstep.
  destruct Hstep as [Hj Hn Hw | p Hj Hn Hw Hfg Hw' | p Hj Hn Hw Hw'
                     | i j Hi Hj Hn Hw | i j st Hi Hst Hj Hn Hw
                     | i j Hw Hi Hj Hn Hw' | i j0 p st cl Hw Hfree Hp Hj Hn Hw'].
  - unfold fg_discipline. now rewrite Hj, Hw.
  - unfold fg_discipline. rewrite Hj, Hw'. split; [exact Huniq |].
    intros k y Hk Hy.
    destruct (fgpid_found _ _ _ Hk Hy) as (k' & y' & Hk' & Hy' & Hpid).
    specialize (Hwait k' y' Hk' Hy'). rewrite Hw in Hwait. congruence.
  - unfold fg_discipline. rewrite Hj, Hw'. split; [exact Huniq |].
    intros k y Hk Hy. specialize (Hwait k y Hk Hy). now rewrite Hw in Hwait.
  - assert (Hold : forall k y, jobs s' !! k = Some y -> state y = FG ->
                               jobs s !! k = Some y).
    { intros k y Hk Hy. rewrite Hj in Hk.
      apply list_lookup_insert_Some in Hk as [(_ & <- & _) | [_ Hk]];
        [discriminate Hy | exact Hk]. }
    split.
    + intros k k' y y' Hk Hk' Hy Hy'. eapply Huniq; eauto.
    + intros k y Hk Hy. rewrite Hw. apply (Hwait k y); auto.
  - assert (Hold : forall k y, jobs s' !! k = Some y -> state y = FG ->
                               jobs s !! k = Some y).
    { intros k y Hk Hy. rewrite Hj in Hk.
      apply list_lookup_insert_Some in Hk as [(_ & <- & _) | [_ Hk]];
        [cbn in Hy; contradiction | exact Hk]. }
    split.
    + intros k k' y y' Hk Hk' Hy Hy'. eapply Huniq; eauto.
    + intros k y Hk Hy. rewrite Hw. apply (Hwait k y); auto.
  - rewrite Hw in Hwait.
    assert (Hnew : forall k y, jobs s' !! k = Some y -> state y = FG ->
                               k = i /\ pid y = pid j).
    { intros k y Hk Hy. rewrite Hj in Hk.
      apply list_lookup_insert_Some in Hk as [(<- & <- & _) | [_ Hk]];
        [auto | destruct (Hwait k y Hk Hy)]. }
    split.
    + intros k k' y y' Hk Hk' Hy Hy'.
      destruct (Hnew k y Hk Hy) as [-> _]. now destruct (Hnew k' y' Hk' Hy') as [-> _].
    + intros k y Hk Hy. rewrite Hw'. now destruct (Hnew k y Hk Hy).
  - rewrite Hw in Hwait.
    assert (Hnew : forall k y, jobs s' !! k = Some y -> state y = FG ->
                               k = i /\ pid y = p /\ st = FG).
    { intros k y Hk Hy. rewrite Hj in Hk.
      apply list_lookup_insert_Some in Hk as [(<- & <- & _) | [_ Hk]];
        [auto | destruct (Hwait k y Hk Hy)]. }
    split.
    + intros k k' y y' Hk Hk' Hy Hy'.
      destruct (Hnew k y Hk Hy) as [-> _]. now destruct (Hnew k' y' Hk' Hy') as [-> _].
    + intros k y Hk Hy. rewrite Hw'.
      destruct (Hnew k y Hk Hy) as (_ & Hpid & ->). exact Hpid.
Qed.

Lemma fg_discipline_reachable s : reachable s -> fg_discipline s.
Proof.
  apply reachable_invariant.
  - intros v. split.
    + intros i i' j j' Hi _ Hj. apply boot_slot in Hi as ->. discriminate Hj.
    + intros k y Hk Hy. apply boot_slot in Hk as ->. discriminate Hy.
  - apply fg_discipline_tstep.
Qed.

(** C1 (as the code has it): in every state the running shell can
    reach, at most one live job is in the foreground.  What keeps it so
    is the main flow, which starts no command while it waits for a
    foreground job. *)
Theorem at_most_one_fg_reachable (s : shell) :
  reachable s -> at_most_one_fg (jobs s).
Proof.
  intros Hs. destruct (fg_discipline_reachable s Hs) as [Huniq _].
  intros i i' j j' Hi Hi' [_ Hj] [_ Hj']. eapply Huniq; eauto.
Qed.

Lemma at_most_one_fg_reachable_witness :
  reachable one_fg /\ at_most_one_fg (jobs one_fg).
Proof.
  assert (H : reachable one_fg).
  { exists 0. apply rtc_once.
    apply (step_eval _ ("sleep 5" +:+ NL) (forked 100) ok); reflexivity. }
  split; [exact H | exact (at_most_one_fg_reachable one_fg H)].
Defined.

(** C1 (as stated) fails: the operations applied in any order do not
    keep the invariant; two calls of [addjob] with state [FG] leave two
    live foreground jobs. *)
Lemma at_most_one_fg_ops_counterexample :
  op_reachable two_fg /\
  jobs two_fg !! 0%nat = Some (Job 100 1 FG ("vi" +:+ NL)) /\
  jobs two_fg !! 1%nat = Some (Job 101 2 FG ("cat" +:+ NL)) /\
  ~ at_most_one_fg (jobs two_fg).
Proof.
  split; [| split; [reflexivity | split; [reflexivity |]]].
  - exists 0.
    eapply rtc_l; [apply (op_addjob _ 100 FG ("vi" +:+ NL) 1); reflexivity |].
    apply rtc_once. apply (op_addjob _ 101 FG ("cat" +:+ NL) 1); reflexivity.
  - intros Hone.
    assert (H01 : 0%nat = 1%nat); [| discriminate H01].
    apply (Hone 0%nat 1%nat (Job 100 1 FG ("vi" +:+ NL)) (Job 101 2 FG ("cat" +:+ NL)));
      [reflexivity | reflexivity | split; [discriminate | reflexivity]
       | split; [discriminate | reflexivity]].
Qed.

(** [fg] too sets [FG] without looking at the other jobs. *)
Example fg_second_job :
  let s := after (addjob 101 BG ("cat &" +:+ NL)
                    (after (addjob 100 FG ("vi" +:+ NL) (boot 0)))) in
  map state (take 2 (jobs (after (do_bgfg ["fg"; "%2"] ok s)))) = [FG; FG].
Proof. reflexivity. Qed.

(** ** The job-id counter *)

Lemma maxjid_from_max m js : maxjid_from m js = Z.max m (maxjid_from 0 js) \/ m < 0.
Proof.
  revert m. induction js as [| j r IH]; intros m; cbn.
  - lia.
  - destruct (Z.lt_ge_cases m 0) as [Hm | Hm]; [now right | left].
    destruct (Z.gtb_spec (jid j) m), (Z.gtb_spec (jid j) 0).
    + destruct (IH (jid j)) as [-> | ?]; lia.
    + lia.
    + destruct (IH m) as [-> | ?]; [| lia].
      destruct (IH (jid j)) as [-> | ?]; lia.
    + now destruct (IH m) as [-> | ?]; [| lia].
Qed.

Lemma maxjid_from_ge m js : m <= maxjid_from m js.
Proof.
  revert m. induction js as [| j r IH]; intros m; cbn; [lia |].
  destruct (Z.gtb_spec (jid j) m); etrans; [| apply IH | | apply IH]; lia.
Qed.

Lemma maxjid_nonneg js : 0 <= maxjid js.
Proof. apply maxjid_from_ge. Qed.

Lemma maxjid_cons j js : maxjid (j :: js) = Z.max (Z.max 0 (jid j)) (maxjid js).
Proof.
  unfold maxjid. cbn.
  destruct (Z.gtb_spec (jid j) 0).
  - destruct (maxjid_from_max (jid j) js) as [-> | ?]; lia.
  - pose proof (maxjid_nonneg js) as Hn. unfold maxjid in Hn. lia.
Qed.

Lemma max_live_jid_nonneg js : 0 <= max_live_jid js.
Proof.
  unfold max_live_jid. induction (filter live js) as [| j r IH]; cbn; lia.
Qed.

Lemma maxjid_live js : free_slots_clear js -> maxjid js = max_live_jid js.
Proof.
  induction js as [| j r IH]; intros Hclear; [reflexivity |].
  rewrite maxjid_cons, IH.
  - unfold max_live_jid. rewrite filter_cons.
    pose proof (max_live_jid_nonneg r) as Hn. unfold max_live_jid in Hn.
    destruct (decide (live j)) as [Hl | Hl]; cbn; [lia |].
    assert (jid j = 0) as ->; [| lia].
    apply (Hclear 0%nat j); [reflexivity |].
    unfold live in Hl. lia.
  - intros k y Hk. apply (Hclear (S k) y Hk).
Qed.

Lemma free_slots_clear_tstep s s' :
  free_slots_clear (jobs s) -> tstep s s' -> free_slots_clear (jobs s').
Proof.
  intros Hclear Hstep.
  destruct Hstep as [Hj Hn Hw | p Hj Hn Hw Hfg Hw' | p Hj Hn Hw Hw'
                     | i j Hi Hj Hn Hw | i j st Hi Hst Hj Hn Hw
                     | i j Hw Hi Hj Hn Hw' | i j0 p st cl Hw Hfree Hp Hj Hn Hw'];
    rewrite Hj; try exact Hclear; intros k y Hk Hy;
    apply list_lookup_insert_Some in Hk as [(_ & <- & _) | [_ Hk]];
    eauto; cbn in *; try lia; eauto.
Qed.

Lemma free_slots_clear_reachable s : reachable s -> free_slots_clear (jobs s).
Proof.
  apply (reachable_invariant (fun s => free_slots_clear (jobs s))).
  - intros v k y Hk _. now apply boot_slot in Hk as ->.
  - apply free_slots_clear_tstep.
Qed.

(** C3 (as the code has it): in the running shell every successful
    removal sets [nextjid] to the largest live job id plus one, with no
    wrap at the capacity; every successful insert hands out [nextjid]
    and sets it to that id plus one, or to 1 when this exceeds 16. *)
Theorem nextjid_maintenance (s : shell) :
  reachable s ->
  (forall p s', deletejob p s = Ret 1 s' ->
     nextjid s' = to_int (max_live_jid (jobs s') + 1) /\
     (max_live_jid (jobs s') < INT_MAX -> nextjid s' = max_live_jid (jobs s') + 1)) /\
  (forall p st cl s', addjob p st cl s = Ret 1 s' ->
     (exists i, jobs s' !! i = Some (Job p (nextjid s) st cl)) /\
     nextjid s' = (if to_int (nextjid s + 1) >? MAXJOBS then 1
                   else to_int (nextjid s + 1))).
Proof.
  intros Hs. pose proof (free_slots_clear_reachable s Hs) as Hclear. split.
  - intros p s' Hdel.
    assert (Hclear' : free_slots_clear (jobs s'))
      by (eapply free_slots_clear_tstep; eauto using deletejob_tstep).
    assert (Hnext : nextjid s' = to_int (max_live_jid (jobs s') + 1)).
    { rewrite <- (maxjid_live _ Hclear').
      destruct (deletejob_inv p s) as [H0 | (i & j & H1 & _)];
        [rewrite H0 in Hdel; discriminate Hdel |].
      rewrite H1 in Hdel. now injection Hdel as <-. }
    split; [exact Hnext |].
    intros Hmax. rewrite Hnext. apply to_int_small.
    pose proof (max_live_jid_nonneg (jobs s')). unfold INT_MIN, INT_MAX in *. lia.
  - intros p st cl s' Hadd.
    destruct (addjob_inv p st cl s)
      as [[H0 _] | [(H0 & _) | (i & j0 & H1 & _ & Hfree)]];
      [rewrite H0 in Hadd; discriminate Hadd.. |].
    rewrite H1 in Hadd. injection Hadd as <-. cbn.
    apply list_find_index in Hfree as (_ & _ & Hi).
    split; [| reflexivity].
    exists i. now apply list_lookup_insert_eq.
Qed.

Ltac run_spawn p :=
  eapply rtc_l;
  [ apply (step_eval _ ("sleep 9 &" +:+ NL) (forked p) ok);
    [ reflexivity | vm_compute; reflexivity ] | ].
Ltac run_reap p :=
  eapply rtc_l;
  [ apply (step_sigchld _ [(p, WExited 0)]); vm_compute; reflexivity | ].

Lemma full_table_reachable : reachable full_table.
Proof.
  exists 0. vm_compute.
  run_spawn 101. run_spawn 102. run_spawn 103. run_spawn 104.
  run_spawn 105. run_spawn 106. run_spawn 107. run_spawn 108.
  run_spawn 109. run_spawn 110. run_spawn 111. run_spawn 112.
  run_spawn 113. run_spawn 114. run_spawn 115. run_spawn 116.
  apply rtc_refl.
Qed.

Lemma wrapped_table_reachable : reachable wrapped_table.
Proof.
  destruct full_table_reachable as [v Hfull]. exists v.
  etrans; [exact Hfull |]. vm_compute.
  run_reap 102. run_reap 103. run_spawn 117.
  apply rtc_refl.
Qed.

Lemma nextjid_maintenance_witness :
  reachable full_table /\
  (exists s', deletejob 102 full_table = Ret 1 s' /\ nextjid s' = 17) /\
  (exists s', addjob 117 BG ("ls &" +:+ NL) (reap full_table 102) = Ret 1 s' /\
              jobs s' !! 1%nat = Some (Job 117 17 BG ("ls &" +:+ NL)) /\
              nextjid s' = 1).
Proof.
  split; [exact full_table_reachable |]. split.
  - destruct (nextjid_maintenance full_table full_table_reachable) as [H _].
    eexists. split; [vm_compute; reflexivity |].
    refine (proj1 (H 102 _ _)). vm_compute. reflexivity.
  - assert (Hr : reachable (reap full_table 102)).
    { destruct full_table_reachable as [v Hfull]. exists v.
      etrans; [exact Hfull |]. vm_compute. run_reap 102. apply rtc_refl. }
    destruct (nextjid_maintenance _ Hr) as [_ H].
    eexists. split; [vm_compute; reflexivity |].
    split; [reflexivity |].
    refine (proj2 (H 117 BG ("ls &" +:+ NL) _ _)). vm_compute. reflexivity.
Defined.

(** C3 (as stated) fails: with sixteen jobs in the table, removing the
    job of child 102 sets [nextjid] to 17, where the largest live job id
    plus one, wrapped at the capacity, is 1. *)
Lemma nextjid_removal_counterexample :
  reachable full_table /\
  exists s',
    deletejob 102 full_table = Ret 1 s' /\
    max_live_jid (jobs s') = 16 /\
    nextjid s' = 17 /\
    spec_next_jid (jobs s') = 1 /\
    nextjid s' <> spec_next_jid (jobs s').
Proof.
  split; [exact full_table_reachable |].
  eexists. split; [vm_compute; reflexivity |].
  repeat split; discriminate.
Qed.

(** C4 (the code breaks it): after the counter has wrapped, [addjob]
    hands out job id 1 although the job of child 101 is live and holds
    job id 1. *)
Theorem jid_collision_after_wrap :
  reachable wrapped_table /\
  nextjid wrapped_table = 1 /\
  exists s',
    addjob 118 BG ("sleep 9 &" +:+ NL) wrapped_table = Ret 1 s' /\
    jobs s' !! 0%nat = Some (Job 101 1 BG ("sleep 9 &" +:+ NL)) /\
    jobs s' !! 2%nat = Some (Job 118 1 BG ("sleep 9 &" +:+ NL)).
Proof.
  split; [exact wrapped_table_reachable |]. split; [reflexivity |].
  eexists. split; [vm_compute; reflexivity |]. split; reflexivity.
Qed.

(** * Further properties of the job table and the handlers *)

(** ** Lookups *)

Lemma list_find_before {A} (P : A -> Prop) `{forall x, Decision (P x)} l i x :
  list_find P l = Some (i, x) -> Forall (fun y => ~ P y) (take i l).
Proof.
  intros Hf. apply list_find_Some in Hf as (_ & _ & Hleast).
  apply Forall_lookup. intros k y Hk.
  apply lookup_take_Some in Hk as [Hk Hlt]. eauto.
Qed.

Lemma list_find_insert_other {A} (P : A -> Prop) `{forall x, Decision (P x)} l i x y :
  l !! i = Some y -> ~ P y -> ~ P x ->
  list_find P (<[i := x]> l) = list_find P l.
Proof.
  assert (Hcons : forall a r, list_find P (a :: r)
            = if decide (P a) then Some (0%nat, a)
              else prod_map S id <$> list_find P r) by reflexivity.
  revert i. induction l as [| a l IH]; intros i Hi Hy Hx; [reflexivity |].
  destruct i as [| i].
  - injection Hi as ->. change (<[0%nat := x]> (y :: l)) with (x :: l).
    rewrite !Hcons.
    destruct (decide (P x)), (decide (P y)); try contradiction. reflexivity.
  - change (<[S i := x]> (a :: l)) with (a :: <[i := x]> l).
    rewrite !Hcons. destruct (decide (P a)); [reflexivity |].
    now rewrite (IH i).
Qed.

Lemma lookups_first_match_aux (js : list job_t) (p n : Z) :
  match getjobpid js p with
  | Some i =>
      1 <= p /\
      (exists j, js !! i = Some j /\ pid j = p /\ pid2jid js p = jid j) /\
      Forall (fun y => pid y <> p) (take i js)
  | None => (p < 1 \/ Forall (fun y => pid y <> p) js) /\ pid2jid js p = 0
  end /\
  match getjobjid js n with
  | Some i =>
      1 <= n /\ (exists j, js !! i = Some j /\ jid j = n) /\
      Forall (fun y => jid y <> n) (take i js)
  | None => n < 1 \/ Forall (fun y => jid y <> n) js
  end.
Proof.
  unfold getjobpid, getjobjid, pid2jid. split.
  - destruct (Z.ltb_spec p 1); [auto |].
    destruct (list_find _ js) as [[i j] |] eqn:Hf; cbn.
    + pose proof (list_find_before _ _ _ _ Hf).
      apply list_find_index in Hf as (Hi & Hp & _). eauto 10.
    + apply list_find_None in Hf. auto.
  - destruct (Z.ltb_spec n 1); [auto |].
    destruct (list_find _ js) as [[i j] |] eqn:Hf; cbn.
    + pose proof (list_find_before _ _ _ _ Hf).
      apply list_find_index in Hf as (Hi & Hp & _). eauto 10.
    + apply list_find_None in Hf. auto.
Qed.

(** X1: [getjobpid] and [getjobjid] return the first slot that carries
    the pid (the job id), and NULL exactly when the number is below 1 or
    no slot carries it; [pid2jid] is the job id of the slot [getjobpid]
    finds, and 0 when it finds none. *)
Theorem lookups_first_match (js : list job_t) (p n : Z) :
  match getjobpid js p with
  | Some i =>
      1 <= p /\
      (exists j, js !! i = Some j /\ pid j = p /\ pid2jid js p = jid j) /\
      Forall (fun y => pid y <> p) (take i js)
  | None => (p < 1 \/ Forall (fun y => pid y <> p) js) /\ pid2jid js p = 0
  end /\
  match getjobjid js n with
  | Some i =>
      1 <= n /\ (exists j, js !! i = Some j /\ jid j = n) /\
      Forall (fun y => jid y <> n) (take i js)
  | None => n < 1 \/ Forall (fun y => jid y <> n) js
  end.
Proof. intros; apply lookups_first_match_aux; assumption. Qed.

Lemma maxjid_is_largest_aux (js : list job_t) :
  Forall (fun j => jid j <= maxjid js) js /\
  (maxjid js = 0 \/ exists j, j ∈ js /\ jid j = maxjid js).
Proof.
  induction js as [| a r [IHle IHatt]].
  - split; [constructor | now left].
  - rewrite maxjid_cons. pose proof (maxjid_nonneg r). split.
    + constructor; [lia |].
      eapply Forall_impl; [exact IHle |]. cbn. intros; lia.
    + destruct (Z.max_spec (Z.max 0 (jid a)) (maxjid r)) as [[_ ->] | [_ ->]].
      * destruct IHatt as [-> | (j & Hj & Hjid)]; [now left | right].
        exists j. split; [now apply elem_of_cons; right | exact Hjid].
      * destruct (Z.max_spec 0 (jid a)) as [[_ ->] | [_ ->]]; [| now left].
        right. exists a. split; [apply elem_of_cons; now left | reflexivity].
Qed.

(** X2: [maxjid] is the largest job id in the table: no slot exceeds it,
    and it is 0 or the job id of some slot. *)
Theorem maxjid_is_largest (js : list job_t) :
  Forall (fun j => jid j <= maxjid js) js /\
  (maxjid js = 0 \/ exists j, j ∈ js /\ jid j = maxjid js).
Proof. intros; apply maxjid_is_largest_aux; assumption. Qed.

(** ** Insert, remove and look up *)

Lemma lookups_insert_other js i x y q :
  js !! i = Some y -> pid y <> q -> pid x <> q ->
  getjobpid (<[i := x]> js) q = getjobpid js q /\
  pid2jid (<[i := x]> js) q = pid2jid js q.
Proof.
  intros Hi Hy Hx. unfold getjobpid, pid2jid.
  now rewrite (list_find_insert_other (fun j => pid j = q) js i x y).
Qed.

(** X3: a job entered by [addjob] under a pid that no slot carries is
    found again: [getjobpid] returns its slot, [pid2jid] the job id it was
    given, and the lookups of every other pid answer as before. *)
Theorem addjob_then_lookup (s : shell) (p st : Z) (cl : string) :
  1 <= p ->
  Exists (fun j => pid j = 0) (jobs s) ->
  Forall (fun j => pid j <> p) (jobs s) ->
  exists s' i,
    addjob p st cl s = Ret 1 s' /\
    getjobpid (jobs s') p = Some i /\
    jobs s' !! i = Some (Job p (nextjid s) st cl) /\
    pid2jid (jobs s') p = nextjid s /\
    length (jobs s') = length (jobs s) /\
    forall q, q <> p ->
      getjobpid (jobs s') q = getjobpid (jobs s) q /\
      pid2jid (jobs s') q = pid2jid (jobs s) q.
Proof.
  intros Hp Hfree Hfresh.
  destruct (list_find (fun j => pid j = 0) (jobs s)) as [[i j0] |] eqn:Hfind.
  2: { apply list_find_None in Hfind. apply Exists_exists in Hfree as (j & Hj & Hz).
       rewrite Forall_forall in Hfind. now destruct (Hfind j Hj). }
  eexists _, i. split; [exact (addjob_ok p st cl s i j0 Hp Hfind) |]. cbn.
  apply list_find_index in Hfind as (Hi & Hj0 & Hlen).
  assert (Hget : getjobpid (<[i := Job p (nextjid s) st cl]> (jobs s)) p = Some i).
  { apply getjobpid_insert_new; [assumption.. |].
    now apply Forall_forall. }
  split; [exact Hget |].
  split; [now apply list_lookup_insert_eq |].
  split.
  { pose proof (lookups_first_match_aux (<[i := Job p (nextjid s) st cl]> (jobs s)) p 0)
      as [Hm _].
    rewrite Hget in Hm. destruct Hm as (_ & (j & Hj & _ & ->) & _).
    rewrite list_lookup_insert_eq in Hj by assumption. now injection Hj as <-. }
  split; [apply length_insert |].
  intros q Hq. destruct (Z.lt_ge_cases q 1) as [Hq1 | Hq1].
  - unfold getjobpid, pid2jid. destruct (Z.ltb_spec q 1); [auto | lia].
  - apply (lookups_insert_other _ _ _ j0); [assumption | lia | cbn; congruence].
Qed.

Lemma addjob_then_lookup_witness :
  exists s' i,
    addjob 101 BG ("ls &" +:+ NL) one_bg = Ret 1 s' /\
    getjobpid (jobs s') 101 = Some i /\
    jobs s' !! i = Some (Job 101 2 BG ("ls &" +:+ NL)) /\
    pid2jid (jobs s') 101 = 2 /\
    length (jobs s') = 16%nat /\
    forall q, q <> 101 ->
      getjobpid (jobs s') q = getjobpid (jobs one_bg) q /\
      pid2jid (jobs s') q = pid2jid (jobs one_bg) q.
Proof.
  apply (addjob_then_lookup one_bg 101 BG ("ls &" +:+ NL)).
  - lia.
  - apply Exists_cons_tl, Exists_cons_hd. reflexivity.
  - vm_compute. repeat (constructor; [discriminate |]). constructor.
Defined.

(** X4: once [deletejob] has removed the job of a pid that only one slot
    carries, the pid is no longer found, and the lookups of every other
    pid answer as before. *)
Theorem deletejob_then_lookup (s : shell) (p : Z) (i : nat) :
  getjobpid (jobs s) p = Some i ->
  Forall (fun j => pid j <> p) (drop (S i) (jobs s)) ->
  exists s',
    deletejob p s = Ret 1 s' /\
    jobs s' = <[i := Job 0 0 UNDEF EmptyString]> (jobs s) /\
    getjobpid (jobs s') p = None /\
    pid2jid (jobs s') p = 0 /\
    forall q, q <> p ->
      getjobpid (jobs s') q = getjobpid (jobs s) q /\
      pid2jid (jobs s') q = pid2jid (jobs s) q.
Proof.
  intros Hget Hlater. unfold getjobpid in Hget.
  destruct (Z.ltb_spec p 1) as [| Hp]; [discriminate |].
  destruct (list_find (fun j => pid j = p) (jobs s)) as [[i' j] |] eqn:Hfind;
    [| discriminate].
  cbn in Hget. injection Hget as ->.
  pose proof (list_find_before _ _ _ _ Hfind) as Hbefore.
  eexists. split; [exact (deletejob_ok p s i j Hp Hfind) |]. cbn.
  apply list_find_index in Hfind as (Hi & Hj & Hlen).
  split; [reflexivity |].
  assert (Hgone : Forall (fun y => pid y <> p)
                    (<[i := Job 0 0 UNDEF EmptyString]> (jobs s))).
  { apply Forall_lookup. intros k y Hk.
    apply list_lookup_insert_Some in Hk as [(_ & <- & _) | [Hne Hk]]; [cbn; lia |].
    destruct (Nat.lt_ge_cases k i) as [Hlt | Hge].
    - rewrite Forall_lookup in Hbefore. apply (Hbefore k).
      now rewrite lookup_take_lt.
    - rewrite Forall_lookup in Hlater. apply (Hlater (k - S i)%nat).
      rewrite lookup_drop. now replace (S i + (k - S i))%nat with k by lia. }
  pose proof (lookups_first_match_aux (<[i := Job 0 0 UNDEF EmptyString]> (jobs s)) p 0)
    as [Hm _].
  destruct (getjobpid _ p) as [k |] eqn:Hk.
  { destruct Hm as (_ & (y & Hy & Hpid & _) & _).
    rewrite Forall_lookup in Hgone. now destruct (Hgone k y Hy). }
  split; [reflexivity |]. split; [apply Hm |].
  intros q Hq. destruct (Z.lt_ge_cases q 1) as [Hq1 | Hq1].
  - unfold getjobpid, pid2jid. destruct (Z.ltb_spec q 1); [auto | lia].
  - apply (lookups_insert_other _ _ _ j); [assumption | congruence | cbn; lia].
Qed.

Lemma deletejob_then_lookup_witness :
  exists s',
    deletejob 100 one_bg = Ret 1 s' /\
    jobs s' = <[0%nat := Job 0 0 UNDEF EmptyString]> (jobs one_bg) /\
    getjobpid (jobs s') 100 = None /\
    pid2jid (jobs s') 100 = 0 /\
    forall q, q <> 100 ->
      getjobpid (jobs s') q = getjobpid (jobs one_bg) q /\
      pid2jid (jobs s') q = pid2jid (jobs one_bg) q.
Proof.
  apply (deletejob_then_lookup one_bg 100 0).
  - reflexivity.
  - vm_compute. repeat (constructor; [discriminate |]). constructor.
Defined.

(** X5: entering a job under a fresh pid in a clear slot and removing it
    again gives back the table as it was; [nextjid] is then the largest
    job id of that table plus one. *)
Theorem addjob_deletejob_round_trip (s : shell) (p st : Z) (cl : string) (i : nat) :
  1 <= p ->
  list_find (fun j => pid j = 0) (jobs s) = Some (i, Job 0 0 UNDEF EmptyString) ->
  Forall (fun j => pid j <> p) (jobs s) ->
  exists s1 s2,
    addjob p st cl s = Ret 1 s1 /\
    deletejob p s1 = Ret 1 s2 /\
    jobs s2 = jobs s /\
    nextjid s2 = to_int (maxjid (jobs s) + 1).
Proof.
  intros Hp Hfree Hfresh.
  eexists _, _. split; [apply (addjob_ok _ _ _ _ _ _ Hp Hfree) |].
  apply list_find_index in Hfree as (Hi & _ & Hlen).
  assert (Hback : <[i := Job 0 0 UNDEF EmptyString]>
                    (<[i := Job p (nextjid s) st cl]> (jobs s)) = jobs s).
  { rewrite list_insert_insert_eq. now apply list_insert_id. }
  split.
  - erewrite deletejob_ok; [reflexivity | exact Hp |]. cbn.
    apply list_find_insert_new; [assumption | reflexivity |].
    intros k y Hk _. rewrite Forall_lookup in Hfresh. eauto.
  - cbn. now rewrite Hback.
Qed.

Lemma addjob_deletejob_round_trip_witness :
  exists s1 s2,
    addjob 101 FG ("vi" +:+ NL) one_bg = Ret 1 s1 /\
    deletejob 101 s1 = Ret 1 s2 /\
    jobs s2 = jobs one_bg /\
    nextjid s2 = 2.
Proof.
  apply (addjob_deletejob_round_trip one_bg 101 FG ("vi" +:+ NL) 1).
  - lia.
  - reflexivity.
  - vm_compute. repeat (constructor; [discriminate |]). constructor.
Defined.

(** ** Every move, once more: what it does to the slots *)

Lemma parseline_bg_range cl bg argv :
  parseline cl = Some (bg, argv) -> bg = -1 \/ bg = 0 \/ bg = 1.
Proof.
  unfold parseline. destruct (blank_last cl) as [buf |]; [| discriminate].
  cbn. destruct (last _) as [a |]; [| intros [= <- _]; auto].
  case_bool_decide; intros [= <- _]; auto.
Qed.

Lemma deletejob_qstep p s r s' : deletejob p s = Ret r s' -> qstep s s'.
Proof.
  destruct (deletejob_inv p s) as [-> | (i & j & -> & _ & Hfind)]; intros [= <- <-].
  - now apply q_same.
  - apply list_find_index in Hfind as (Hj & _ & _).
    now apply (q_clear _ _ i j).
Qed.

Lemma sigchld_child_qsteps p st s s' :
  sigchld_child p st s = Ret tt s' -> rtc qstep s s'.
Proof.
  unfold sigchld_child. munfold. destruct st; cbn.
  - destruct (deletejob p s) as [r s1 | | |] eqn:Hdel; [| discriminate..].
    intros [= <-]. apply rtc_once. eapply deletejob_qstep, Hdel.
  - set (s1 := with_out _ s).
    destruct (deletejob p s1) as [r s2 | | |] eqn:Hdel; [| discriminate..].
    intros [= <-]. eapply rtc_l; [now apply (q_same s s1) |].
    apply rtc_once. eapply deletejob_qstep, Hdel.
  - intros [= <-]. apply rtc_once. now apply q_same.
Qed.

Lemma sigchld_handler_qsteps reaped s s' :
  sigchld_handler reaped s = Ret tt s' -> rtc qstep s s'.
Proof.
  revert s. induction reaped as [| [p st] more IH]; intros s; cbn.
  - intros [= <-]. apply rtc_refl.
  - destruct (p >? 0).
    + unfold mbind, M_bind.
      destruct (sigchld_child p st s) as [[] s1 | | |] eqn:Hchild; [| discriminate..].
      intros Hmore. etrans; [eapply sigchld_child_qsteps, Hchild | now apply IH].
    + intros [= <-]. apply rtc_refl.
Qed.

Lemma sigint_handler_qstep kill_r s s' :
  sigint_handler kill_r s = Ret tt s' -> qstep s s'.
Proof.
  unfold sigint_handler, Kill. munfold. cbn.
  destruct (fgpid (jobs s) =? 0); [intros [= <-]; now apply q_same |].
  destruct (sys_val kill_r <? 0); cbn; [discriminate |].
  intros [= <-]. now apply q_same.
Qed.

Lemma getjobpid_slot js p i j :
  getjobpid js p = Some i -> js !! i = Some j -> 1 <= pid j /\ pid j = p.
Proof.
  intros Hget Hi. pose proof (lookups_first_match_aux js p 0) as [Hm _].
  rewrite Hget in Hm. destruct Hm as (Hp & (j' & Hj' & Hpid & _) & _).
  assert (j' = j) as -> by congruence. lia.
Qed.

Lemma getjobjid_slot js n i j :
  getjobjid js n = Some i -> js !! i = Some j -> 1 <= jid j /\ jid j = n.
Proof.
  intros Hget Hi. pose proof (lookups_first_match_aux js 0 n) as [_ Hm].
  rewrite Hget in Hm. destruct Hm as (Hn & (j' & Hj' & Hjid) & _).
  assert (j' = j) as -> by congruence. lia.
Qed.

Lemma sigtstp_handler_qstep kill_r s s' :
  sigtstp_handler kill_r s = Ret tt s' -> qstep s s'.
Proof.
  unfold sigtstp_handler, Kill, store_state, deref. munfold. cbn.
  destruct (fgpid (jobs s) =? 0); [intros [= <-]; now apply q_same |].
  destruct (sys_val kill_r <? 0); cbn; [discriminate |].
  destruct (getjobpid (jobs s) (fgpid (jobs s))) as [i |] eqn:Hget; cbn; [| discriminate].
  destruct (jobs s !! i) as [j |] eqn:Hj; [| discriminate].
  intros [= <-]. destruct (getjobpid_slot _ _ _ _ Hget Hj) as [Hp _].
  apply (q_state _ _ i j ST); auto.
Qed.

Lemma do_bgfg_job_qstep isbg i kill_r s s' :
  (forall j, jobs s !! i = Some j -> 1 <= pid j \/ 1 <= jid j) ->
  do_bgfg_job isbg (Some i) kill_r s = Ret tt s' -> qstep s s'.
Proof.
  intros Hfound. unfold do_bgfg_job, Kill, listjob, store_state, deref. munfold. cbn.
  destruct (jobs s !! i) as [j |] eqn:Hj; [| discriminate].
  specialize (Hfound j eq_refl).
  destruct isbg; cbn.
  - destruct (state j =? ST); cbn.
    + destruct (sys_val kill_r <? 0); cbn; [discriminate |].
      rewrite Hj. cbn. rewrite Hj. intros [= <-].
      apply (q_state _ _ i j BG); auto.
    + intros [= <-]. now apply q_same.
  - destruct (_ || _); cbn.
    + destruct (sys_val kill_r <? 0); cbn; [discriminate |].
      rewrite Hj. cbn.
      rewrite list_lookup_insert_eq by eauto using lookup_lt_Some.
      intros [= <-]. apply (q_state _ _ i j FG); auto.
    + intros [= <-]. now apply q_same.
Qed.

Lemma do_bgfg_qstep argv kill_r s s' :
  do_bgfg argv kill_r s = Ret tt s' -> qstep s s'.
Proof.
  destruct argv as [| argv0 [| a rest]]; [discriminate | |].
  - intros [= <-]. now apply q_same.
  - destruct (marker_cases a) as [[d ->] | (_ & _ & _ & Hrun)].
    + cbn. munfold. destruct (isnumber d); cbn.
      * destruct (getjobjid _ _) as [i |] eqn:Hjob.
        -- apply do_bgfg_job_qstep. intros j Hj. right.
           eapply getjobjid_slot; eauto.
        -- intros [= <-]. now apply q_same.
      * intros [= <-]. now apply q_same.
    + rewrite Hrun. unfold do_bgfg_pid. munfold. destruct (isnumber a); cbn.
      * destruct (getjobpid _ _) as [i |] eqn:Hjob.
        -- apply do_bgfg_job_qstep. intros j Hj. left.
           eapply getjobpid_slot; eauto.
        -- intros [= <-]. now apply q_same.
      * intros [= <-]. now apply q_same.
Qed.

Lemma builtin_cmd_qstep argv kill_r s b s' :
  builtin_cmd argv kill_r s = Ret b s' -> qstep s s'.
Proof.
  unfold builtin_cmd. destruct argv as [| argv0 args]; [discriminate |].
  repeat case_bool_decide; try discriminate.
  - unfold mbind, M_bind.
    destruct (do_bgfg _ _ s) as [[] s1 | | |] eqn:Hdo; [| discriminate..].
    intros [= <- <-]. eapply do_bgfg_qstep; eauto.
  - unfold mbind, M_bind.
    destruct (do_bgfg _ _ s) as [[] s1 | | |] eqn:Hdo; [| discriminate..].
    intros [= <- <-]. eapply do_bgfg_qstep; eauto.
  - unfold mbind, M_bind. unfold listbgjobs. munfold.
    rewrite listbgjobs_from_spec. intros [= <- <-]. now apply q_same.
  - intros [= <- <-]. now apply q_same.
Qed.

Lemma builtin_cmd_zero argv kill_r s s' :
  builtin_cmd argv kill_r s = Ret 0 s' -> s' = s.
Proof.
  unfold builtin_cmd. destruct argv; [discriminate |].
  repeat case_bool_decide; try discriminate.
  - unfold mbind, M_bind. destruct (do_bgfg _ _ _) as [[] ?| | |]; discriminate.
  - unfold mbind, M_bind. destruct (do_bgfg _ _ _) as [[] ?| | |]; discriminate.
  - unfold mbind, M_bind. destruct (listbgjobs _) as [[] ?| | |]; discriminate.
  - now intros [= <-].
Qed.

Lemma eval_external_cases cl bg fork_r s s' :
  bg = 0 \/ bg = 1 ->
  eval_external cl bg fork_r s = Ret tt s' -> qstep s s' \/ astep s s'.
Proof.
  intros Hbg. unfold eval_external. cbv zeta.
  destruct (Z.ltb_spec (sys_val fork_r) 0); [discriminate |].
  destruct (Z.eqb_spec (sys_val fork_r) 0); [discriminate |].
  set (p := sys_val fork_r) in *.
  unfold mbind at 1, M_bind at 1.
  destruct (addjob_inv p (bg + 1) cl s)
    as [[-> ?] | [(-> & Hp & Hfull) | (i & j0 & -> & Hp & Hfree)]]; [lia | |].
  - destruct (Z.eqb_spec bg 0) as [-> | Hne].
    + intros [= <-]. left. now apply q_same.
    + munfold. cbn. unfold listjob, deref. munfold. cbn.
      destruct (option_bind _ _ _ _) as [j |]; [| discriminate].
      intros [= <-]. left. now apply q_same.
  - destruct (Z.eqb_spec bg 0) as [-> | Hne].
    + intros [= <-]. right. apply (a_add _ _ i j0 p FG cl); auto.
    + munfold. cbn. unfold listjob, deref. munfold. cbn.
      destruct (option_bind _ _ _ _) as [j |]; [| discriminate].
      intros [= <-]. right. apply (a_add _ _ i j0 p (bg + 1) cl); auto.
      right. unfold BG. lia.
Qed.

Lemma eval_cases cl fork_r kill_r s s' :
  eval cl fork_r kill_r s = Ret tt s' -> qstep s s' \/ astep s s'.
Proof.
  unfold eval.
  destruct (parseline cl) as [[bg argv] |] eqn:Hparse; [| discriminate].
  apply parseline_bg_range in Hparse.
  destruct (Z.eqb_spec bg (-1)); [intros [= <-]; left; now apply q_same |].
  unfold mbind at 1, M_bind at 1.
  destruct (builtin_cmd argv kill_r s) as [b s1 | | |] eqn:Hb; [| discriminate..].
  destruct (Z.eqb_spec b 0) as [-> | Hne].
  - apply builtin_cmd_zero in Hb as ->.
    apply eval_external_cases. lia.
  - intros [= <-]. left. eapply builtin_cmd_qstep; eauto.
Qed.

Lemma step_cases s s' : step s s' -> rtc qstep s s' \/ astep s s'.
Proof.
  destruct 1 as [s cl fr kr s' Hw He | s p Hw Hfg | s reaped s' Hh
                 | s kr s' Hh | s kr s' Hh].
  - destruct (eval_cases _ _ _ _ _ He); [left; now apply rtc_once | now right].
  - left. apply rtc_once. now apply q_same.
  - left. eapply sigchld_handler_qsteps; eauto.
  - left. apply rtc_once. eapply sigint_handler_qstep; eauto.
  - left. apply rtc_once. eapply sigtstp_handler_qstep; eauto.
Qed.

(** A property that holds when the shell starts, and that clearing a
    slot, changing a state and entering a job keep, holds in every state
    the shell reaches. *)
Section SlotInvariant.

Variable P : shell -> Prop.
Hypothesis P_boot : forall v, P (boot v).
Hypothesis P_qstep : forall s s', P s -> qstep s s' -> P s'.
Hypothesis P_astep : forall s s', P s -> astep s s' -> P s'.

Lemma P_qsteps s s' : rtc qstep s s' -> P s -> P s'.
Proof. induction 1; eauto. Qed.

Lemma reachable_slot_invariant s : reachable s -> P s.
Proof.
  intros [v Hrun]. pose proof (P_boot v) as Hboot. revert Hboot.
  induction Hrun as [| s1 s2 s3 H12 _ IH]; [auto |].
  intros H1. apply IH.
  destruct (step_cases _ _ H12); eauto using P_qsteps.
Qed.

End SlotInvariant.

(** ** The table stays in order *)

Lemma table_ok_qstep s s' : table_ok (jobs s) -> qstep s s' -> table_ok (jobs s').
Proof.
  unfold table_ok. intros Hok [Hj _ | i j Hi Hj _ | i j st Hi Hfound Hst Hj _];
    rewrite Hj; [exact Hok | |].
  - apply Forall_insert; [exact Hok | now left].
  - apply Forall_insert; [exact Hok |].
    rewrite Forall_lookup in Hok. destruct (Hok i j Hi) as [-> | [Hp _]].
    + cbn in Hfound. lia.
    + right. cbn. auto.
Qed.

Lemma table_ok_astep s s' : table_ok (jobs s) -> astep s s' -> table_ok (jobs s').
Proof.
  unfold table_ok. intros Hok [i j0 p st cl _ Hp Hst Hj _]. rewrite Hj.
  apply Forall_insert; [exact Hok |]. right. cbn. intuition.
Qed.

Lemma length_qstep s s' : qstep s s' -> length (jobs s') = length (jobs s).
Proof.
  intros [Hj _ | i j _ Hj _ | i j st _ _ _ Hj _]; rewrite Hj;
    auto using length_insert.
Qed.

Lemma length_astep s s' : astep s s' -> length (jobs s') = length (jobs s).
Proof. intros [i j0 p st cl _ _ _ Hj _]. rewrite Hj. apply length_insert. Qed.

Lemma table_ok_reachable_aux (s : shell) :
  reachable s ->
  length (jobs s) = 16%nat /\
  Forall (fun j => j = Job 0 0 UNDEF EmptyString \/
                   (1 <= pid j /\ (state j = FG \/ state j = BG \/ state j = ST)))
         (jobs s).
Proof.
  apply (reachable_slot_invariant
           (fun s => length (jobs s) = 16%nat /\ table_ok (jobs s))).
  - intros v. split; [reflexivity |].
    apply Forall_lookup. intros k y Hk. left. now apply boot_slot in Hk.
  - intros s1 s2 [Hlen Hok] Hq. split.
    + now rewrite (length_qstep _ _ Hq).
    + eapply table_ok_qstep; eauto.
  - intros s1 s2 [Hlen Hok] Ha. split.
    + now rewrite (length_astep _ _ Ha).
    + eapply table_ok_astep; eauto.
Qed.


Lemma one_fg_reachable : reachable one_fg.
Proof.
  exists 0. apply rtc_once.
  apply (step_eval _ ("sleep 5" +:+ NL) (forked 100) ok); reflexivity.
Qed.

Lemma one_bg_reachable : reachable one_bg.
Proof.
  exists 0. apply rtc_once.
  apply (step_eval _ ("sleep 5 &" +:+ NL) (forked 100) ok); reflexivity.
Qed.


Lemma fgpid_reachable_aux (s : shell) :
  reachable s ->
  (fgpid (jobs s) = 0 /\ Forall (fun j => state j <> FG) (jobs s)) \/
  (exists i j,
      jobs s !! i = Some j /\ state j = FG /\
      fgpid (jobs s) = pid j /\ 1 <= pid j /\ waiting s = Some (pid j) /\
      Forall (fun j' => state j' <> FG) (take i (jobs s) ++ drop (S i) (jobs s))).
Proof.
  intros Hs. destruct (table_ok_reachable_aux s Hs) as [_ Hok].
  destruct (fg_discipline_reachable s Hs) as [Huniq Hwait].
  unfold fgpid.
  destruct (list_find (fun j => state j = FG) (jobs s)) as [[i j] |] eqn:Hfind.
  - right. exists i, j. apply list_find_index in Hfind as (Hi & Hfg & Hlen).
    rewrite Forall_lookup in Hok.
    destruct (Hok i j Hi) as [-> | [Hp _]]; [discriminate Hfg |].
    specialize (Hwait i j Hi Hfg).
    destruct (waiting s) as [p |]; [subst p | contradiction].
    repeat split; auto.
    apply Forall_app. split; apply Forall_lookup; intros k y Hk Hy.
    + apply lookup_take_Some in Hk as [Hk Hlt].
      specialize (Huniq k i y j Hk Hi Hy Hfg). lia.
    + rewrite lookup_drop in Hk.
      specialize (Huniq _ i y j Hk Hi Hy Hfg). lia.
  - left. split; [reflexivity |]. now apply list_find_None in Hfind.
Qed.



(** ** listjobs *)

Lemma full_listing_cons j js :
  full_listing (j :: js) =
  if decide (live j)
  then "[" +:+ fmt_d (jid j) +:+ "] (" +:+ fmt_d (pid j) +:+ ") "
         +:+ state_word j +:+ cmdline j +:+ full_listing js
  else full_listing js.
Proof.
  unfold full_listing. rewrite filter_cons. now destruct (decide (live j)).
Qed.

Lemma state_text_ok i j :
  state j = FG \/ state j = BG \/ state j = ST -> state_text i j = state_word j.
Proof.
  unfold state_text, state_word. intros [-> | [-> | ->]]; reflexivity.
Qed.

Lemma listjobs_from_spec i js s :
  table_ok js ->
  listjobs_from i js s = Ret tt (with_out (out s +:+ full_listing js) s).
Proof.
  revert i s. induction js as [| j r IH]; intros i s Hok.
  - cbn. unfold full_listing. cbn. now rewrite string_app_nil_r, with_out_id.
  - apply Forall_cons in Hok as [Hj Hok].
    rewrite full_listing_cons. cbn [listjobs_from]. unfold live.
    destruct (Z.eqb_spec (pid j) 0) as [Hp | Hp].
    + munfold. rewrite (IH _ _ Hok).
      destruct (decide _) as [Hl | _]; [contradiction | reflexivity].
    + destruct Hj as [-> | [_ Hst]]; [now contradiction Hp |].
      munfold. cbn. rewrite (IH _ _ Hok). cbn.
      destruct (decide _) as [_ | Hn]; [| contradiction].
      rewrite (state_text_ok _ _ Hst). now rewrite !string_app_assoc.
Qed.

(** X8: in the running shell [listjobs] prints one entry for every live
    job, in slot order: job id and pid, then [Running], [Foreground] or
    [Stopped], then the command line. Its internal-error text is never
    printed, and nothing but stdout changes. *)
Theorem listjobs_reachable (s : shell) :
  reachable s ->
  listjobs s = Ret tt (with_out (out s +:+ full_listing (jobs s)) s).
Proof.
  intros Hs. destruct (table_ok_reachable_aux s Hs) as [_ Hok].
  unfold listjobs. munfold. now apply listjobs_from_spec.
Qed.

Lemma listjobs_reachable_witness :
  listjobs one_fg =
  Ret tt (with_out ("[1] (100) Foreground sleep 5" +:+ NL) one_fg).
Proof. exact (listjobs_reachable one_fg one_fg_reachable). Defined.

(** ** Job ids stay positive *)

Lemma jids_within_mono b b' s : b <= b' -> jids_within b s -> jids_within b' s.
Proof.
  intros Hb [Hn Hj]. split; [lia |].
  eapply Forall_impl; [exact Hj |]. cbn. intros j [? ?]. split; [lia | auto].
Qed.

Lemma jids_within_qstep b s s' :
  0 <= b -> b + 1 <= INT_MAX ->
  jids_within b s -> qstep s s' -> jids_within b s'.
Proof.
  intros Hb0 Hb [Hn Hjids] [Hj Hnext | i j Hi Hj Hnext | i j st Hi _ _ Hj Hnext].
  - split; [now rewrite Hnext | now rewrite Hj].
  - assert (Hjids' : Forall (fun j => 0 <= jid j <= b /\ (live j -> 1 <= jid j))
                       (jobs s')).
    { rewrite Hj. apply Forall_insert; [exact Hjids |]. cbn. split; [lia |].
      intros Hl. now contradiction Hl. }
    split; [| exact Hjids'].
    rewrite Hnext. pose proof (maxjid_nonneg (jobs s')).
    assert (maxjid (jobs s') <= b).
    { destruct (maxjid_is_largest_aux (jobs s')) as [_ [-> | (y & Hy & <-)]]; [lia |].
      rewrite Forall_forall in Hjids'. apply (Hjids' y Hy). }
    rewrite to_int_small; unfold INT_MIN, INT_MAX in *; lia.
  - split; [now rewrite Hnext |].
    rewrite Hj. apply Forall_insert; [exact Hjids |].
    rewrite Forall_lookup in Hjids. apply (Hjids i j Hi).
Qed.

Lemma jids_within_astep b s s' :
  0 <= b -> b + 2 <= INT_MAX ->
  jids_within b s -> astep s s' -> jids_within (b + 1) s'.
Proof.
  intros Hb0 Hb [Hn Hjids] [i j0 p st cl _ Hp _ Hj Hnext]. split.
  - rewrite Hnext. unfold next_after_add. cbv zeta.
    rewrite to_int_small by (unfold INT_MIN, INT_MAX in *; lia).
    destruct (Z.gtb_spec (nextjid s + 1) MAXJOBS); lia.
  - rewrite Hj. apply Forall_insert.
    + eapply Forall_impl; [exact Hjids |]. cbn. intros j [? ?]. split; [lia | auto].
    + cbn. split; [lia |]. intros _. lia.
Qed.

Lemma jids_within_qsteps b s s' :
  0 <= b -> b + 1 <= INT_MAX ->
  rtc qstep s s' -> jids_within b s -> jids_within b s'.
Proof. intros Hb0 Hb. induction 1; eauto using jids_within_qstep. Qed.

Lemma jids_within_nsteps n v s :
  nsteps step n (boot v) s -> Z.of_nat n + 1 <= INT_MAX ->
  jids_within (Z.of_nat n) s.
Proof.
  revert s. induction n as [| n IH]; intros s Hrun Hn.
  - inversion Hrun; subst. split; [cbn; lia |].
    apply Forall_lookup. intros k y Hk. apply boot_slot in Hk as ->.
    cbn. split; [lia |]. intros Hl. now contradiction Hl.
  - apply nsteps_inv_r in Hrun as (s1 & Hrun & Hstep).
    specialize (IH s1 Hrun ltac:(lia)).
    destruct (step_cases _ _ Hstep) as [Hq | Ha].
    + apply (jids_within_mono (Z.of_nat n)); [lia |].
      eapply jids_within_qsteps; eauto; lia.
    + replace (Z.of_nat (S n)) with (Z.of_nat n + 1) by lia.
      eapply jids_within_astep; eauto; lia.
Qed.

(** X9: for the first [INT_MAX - 1] moves of the running shell the
    counter [nextjid] and the job id of every live job are strictly
    positive; after [n] moves no job id exceeds [n]. *)
Theorem jids_positive (n : nat) (v : Z) (s : shell) :
  nsteps step n (boot v) s ->
  Z.of_nat n < INT_MAX ->
  1 <= nextjid s /\
  Forall (fun j => jid j <= Z.of_nat n /\ (live j -> 1 <= jid j)) (jobs s).
Proof.
  intros Hrun Hn.
  destruct (jids_within_nsteps n v s Hrun ltac:(lia)) as [Hnext Hjids].
  split; [lia |].
  eapply Forall_impl; [exact Hjids |]. cbn. intros j [? ?]. split; [lia | auto].
Qed.

Lemma jids_positive_witness :
  1 <= nextjid one_bg /\
  Forall (fun j => jid j <= 1 /\ (live j -> 1 <= jid j)) (jobs one_bg).
Proof.
  apply (jids_positive 1 0 one_bg).
  - apply nsteps_once.
    apply (step_eval _ ("sleep 5 &" +:+ NL) (forked 100) ok); reflexivity.
  - reflexivity.
Defined.

(** ** The keyboard handlers and the end of the wait *)

Lemma fgpid_of_fg_slot s i j :
  reachable s -> jobs s !! i = Some j -> state j = FG ->
  fgpid (jobs s) = pid j /\ 1 <= pid j /\ waiting s = Some (pid j) /\
  (forall k y, jobs s !! k = Some y -> state y = FG -> k = i).
Proof.
  intros Hs Hi Hfg.
  destruct (fg_discipline_reachable s Hs) as [Huniq _].
  destruct (fgpid_reachable_aux s Hs) as [[_ Hnone] | (i' & j' & Hi' & Hfg' & Hpid & Hp & Hw & _)].
  - rewrite Forall_lookup in Hnone. now destruct (Hnone i j Hi).
  - assert (i' = i) as -> by eauto.
    assert (j' = j) as -> by congruence.
    repeat split; auto. intros k y Hk Hy. eauto.
Qed.

Lemma fgpid_none js : Forall (fun j => state j <> FG) js -> fgpid js = 0.
Proof.
  intros Hnone. unfold fgpid.
  assert (list_find (fun j => state j = FG) js = None) as ->
    by now apply list_find_None.
  reflexivity.
Qed.

Lemma fgpid_after_leaving s i x :
  (forall k y, jobs s !! k = Some y -> state y = FG -> k = i) ->
  state x <> FG -> fgpid (<[i := x]> (jobs s)) = 0.
Proof.
  intros Honly Hx. apply fgpid_none, Forall_lookup. intros k y Hk Hy.
  apply list_lookup_insert_Some in Hk as [(_ & <- & _) | [Hne Hk]];
    [contradiction | apply Hne; symmetry; eauto].
Qed.

(** X10: in the running shell, with no job in the foreground both
    keyboard handlers do nothing at all; with a job in the foreground
    [sigint_handler] sends SIGINT to the process group of that job and to
    nobody else, and leaves the job table as it is. *)
Theorem sigint_handler_relays (s : shell) (kill_r : sysret) :
  reachable s -> 0 <= sys_val kill_r ->
  (Forall (fun j => state j <> FG) (jobs s) ->
   sigint_handler kill_r s = Ret tt s /\ sigtstp_handler kill_r s = Ret tt s) /\
  (forall i j, jobs s !! i = Some j -> state j = FG ->
   sigint_handler kill_r s =
   Ret tt (with_sent (sent s ++ [(to_int (- pid j), SIGINT)]) s)).
Proof.
  intros Hs Hk. split.
  - intros Hnone. apply fgpid_none in Hnone.
    unfold sigint_handler, sigtstp_handler. munfold. cbn. now rewrite Hnone.
  - intros i j Hi Hfg.
    destruct (fgpid_of_fg_slot s i j Hs Hi Hfg) as (Hpid & Hp & _).
    unfold sigint_handler, Kill. munfold. cbn. rewrite Hpid.
    destruct (Z.eqb_spec (pid j) 0); [lia |].
    destruct (Z.ltb_spec (sys_val kill_r) 0); [lia | reflexivity].
Qed.

Lemma sigint_handler_relays_witness :
  (sigint_handler ok one_bg = Ret tt one_bg /\
   sigtstp_handler ok one_bg = Ret tt one_bg) /\
  sigint_handler ok one_fg = Ret tt (with_sent [(-100, SIGINT)] one_fg).
Proof.
  split.
  - destruct (sigint_handler_relays one_bg ok one_bg_reachable) as [H _];
      [discriminate |].
    apply H. vm_compute. repeat (constructor; [discriminate |]). constructor.
  - destruct (sigint_handler_relays one_fg ok one_fg_reachable) as [_ H];
      [discriminate |].
    exact (H 0%nat (Job 100 1 FG ("sleep 5" +:+ NL)) eq_refl eq_refl).
Defined.

(** X11: in the running shell, when the foreground job is the first slot
    with its pid, [sigtstp_handler] sends SIGTSTP to its process group
    and sets it to [ST]; no job is in the foreground afterwards, so the
    next poll of [waitfg] ends the wait. *)
Theorem sigtstp_handler_stops_foreground
    (s : shell) (kill_r : sysret) (i : nat) (j : job_t) :
  reachable s -> 0 <= sys_val kill_r ->
  jobs s !! i = Some j -> state j = FG ->
  getjobpid (jobs s) (pid j) = Some i ->
  exists s',
    sigtstp_handler kill_r s = Ret tt s' /\
    jobs s' = <[i := Job (pid j) (jid j) ST (cmdline j)]> (jobs s) /\
    sent s' = sent s ++ [(to_int (- pid j), SIGTSTP)] /\
    out s' = out s /\ nextjid s' = nextjid s /\
    fgpid (jobs s') = 0 /\
    step s' (with_waiting None s').
Proof.
  intros Hs Hk Hi Hfg Hget.
  destruct (fgpid_of_fg_slot s i j Hs Hi Hfg) as (Hpid & Hp & Hw & Honly).
  unfold sigtstp_handler, Kill, store_state, deref. munfold. cbn. rewrite Hpid.
  destruct (Z.eqb_spec (pid j) 0); [lia |].
  destruct (Z.ltb_spec (sys_val kill_r) 0); [lia |]. cbn.
  rewrite Hget. cbn. rewrite Hi.
  eexists. split; [reflexivity |]. cbn.
  assert (Hnofg : fgpid (<[i := Job (pid j) (jid j) ST (cmdline j)]> (jobs s)) = 0)
    by (apply fgpid_after_leaving; [exact Honly | discriminate]).
  repeat split; [exact Hnofg |].
  apply (step_waitfg _ (pid j)); [exact Hw | cbn; lia].
Qed.

Lemma sigtstp_handler_stops_foreground_witness :
  exists s',
    sigtstp_handler ok one_fg = Ret tt s' /\
    jobs s' = <[0%nat := Job 100 1 ST ("sleep 5" +:+ NL)]> (jobs one_fg) /\
    sent s' = [(-100, SIGTSTP)] /\
    out s' = EmptyString /\ nextjid s' = 2 /\
    fgpid (jobs s') = 0 /\
    step s' (with_waiting None s').
Proof.
  apply (sigtstp_handler_stops_foreground one_fg ok 0 (Job 100 1 FG ("sleep 5" +:+ NL))
           one_fg_reachable); [discriminate | reflexivity..].
Defined.

(** X12: in the running shell, when the child of the foreground job
    (the first slot with its pid) is reported as exited or as killed by a
    signal, [sigchld_handler] clears its slot; no job is in the foreground
    afterwards, so the next poll of [waitfg] ends the wait. *)
Theorem sigchld_handler_ends_wait
    (s : shell) (st : wstatus) (i : nat) (j : job_t) :
  reachable s ->
  jobs s !! i = Some j -> state j = FG ->
  getjobpid (jobs s) (pid j) = Some i ->
  WIFSTOPPED st = false ->
  exists s',
    sigchld_handler [(pid j, st)] s = Ret tt s' /\
    jobs s' = <[i := Job 0 0 UNDEF EmptyString]> (jobs s) /\
    sent s' = sent s /\
    fgpid (jobs s') = 0 /\
    step s' (with_waiting None s').
Proof.
  intros Hs Hi Hfg Hget Hst.
  destruct (fgpid_of_fg_slot s i j Hs Hi Hfg) as (Hpid & Hp & Hw & Honly).
  rewrite sigchld_handler_one by lia.
  assert (Hdone : forall s1, jobs s1 = jobs s -> sent s1 = sent s ->
            waiting s1 = waiting s ->
            exists s', (deletejob (pid j);; skip) s1 = Ret tt s' /\
              jobs s' = <[i := Job 0 0 UNDEF EmptyString]> (jobs s) /\
              sent s' = sent s /\ fgpid (jobs s') = 0 /\
              step s' (with_waiting None s')).
  { intros s1 Hj1 Hs1 Hw1.
    destruct (deletejob_without_job (pid j) s1) as (r & s' & Hdel & Hjobs & _ & Hsent & Hw').
    exists s'. munfold. rewrite Hdel.
    unfold without_job in Hjobs. rewrite Hj1, Hget in Hjobs.
    assert (Hnofg : fgpid (jobs s') = 0)
      by (rewrite Hjobs; apply fgpid_after_leaving; [exact Honly | discriminate]).
    repeat split; [exact Hjobs | congruence | exact Hnofg |].
    apply (step_waitfg _ (pid j)); [congruence | lia]. }
  unfold sigchld_child. destruct st as [c | n | n]; [| | discriminate Hst].
  - destruct (Hdone s eq_refl eq_refl eq_refl) as (s' & Hrun & Hrest).
    exists s'. split; [| exact Hrest].
    munfold. cbn. cbn in Hrun. destruct (deletejob (pid j) s); congruence.
  - set (s1 := with_out (out s +:+ "Job [" +:+ fmt_d (pid2jid (jobs s) (pid j)) +:+ "] ("
                           +:+ fmt_d (pid j) +:+ ") terminated by signal "
                           +:+ fmt_d n +:+ NL) s).
    destruct (Hdone s1 eq_refl eq_refl eq_refl) as (s' & Hrun & Hrest).
    exists s'. split; [| exact Hrest].
    munfold. cbn. cbn in Hrun. fold s1. destruct (deletejob (pid j) s1); congruence.
Qed.

Lemma sigchld_handler_ends_wait_witness :
  exists s',
    sigchld_handler [(100, WSignaled 2)] one_fg = Ret tt s' /\
    jobs s' = <[0%nat := Job 0 0 UNDEF EmptyString]> (jobs one_fg) /\
    sent s' = [] /\
    fgpid (jobs s') = 0 /\
    step s' (with_waiting None s').
Proof.
  apply (sigchld_handler_ends_wait one_fg (WSignaled 2) 0
           (Job 100 1 FG ("sleep 5" +:+ NL)) one_fg_reachable); reflexivity.
Defined.

(** ** fg, and commands that cannot be carried out *)

Lemma fg_resumes_job_aux
    (s : shell) (kill_r : sysret) (a : string) (rest : list string)
    (i : nat) (j : job_t) :
  bgfg_target (jobs s) a = Some i ->
  jobs s !! i = Some j ->
  state j = ST \/ state j = BG ->
  0 <= sys_val kill_r ->
  do_bgfg ("fg" :: a :: rest) kill_r s =
  Ret tt (Shell (<[i := Job (pid j) (jid j) FG (cmdline j)]> (jobs s)) (nextjid s)
            (verbose s) (out s) (sent s ++ [(to_int (- pid j), SIGCONT)])
            (Some (pid j))).
Proof.
  intros Htarget Hj Hst Hk.
  rewrite (bgfg_target_run _ _ _ _ _ _ Htarget).
  change (bool_decide ("fg" = "bg")) with false.
  unfold do_bgfg_job, Kill, listjob, store_state, deref. munfold. cbn.
  rewrite Hj.
  assert ((state j =? ST) || (state j =? BG) = true) as ->.
  { destruct Hst as [-> | ->]; reflexivity. }
  cbn. destruct (Z.ltb_spec (sys_val kill_r) 0); [lia |]. cbn.
  rewrite Hj. cbn.
  rewrite list_lookup_insert_eq by eauto using lookup_lt_Some. reflexivity.
Qed.

(** X13: [fg] on a stopped or background job sends SIGCONT to the
    process group of the job, sets the job to [FG], prints nothing and
    leaves the main flow waiting for the job's pid. *)
Theorem fg_resumes_job
    (s : shell) (kill_r : sysret) (a : string) (rest : list string)
    (i : nat) (j : job_t) :
  bgfg_target (jobs s) a = Some i ->
  jobs s !! i = Some j ->
  state j = ST \/ state j = BG ->
  0 <= sys_val kill_r ->
  do_bgfg ("fg" :: a :: rest) kill_r s =
  Ret tt (Shell (<[i := Job (pid j) (jid j) FG (cmdline j)]> (jobs s)) (nextjid s)
            (verbose s) (out s) (sent s ++ [(to_int (- pid j), SIGCONT)])
            (Some (pid j))).
Proof. intros; apply fg_resumes_job_aux; assumption. Qed.

Lemma fg_resumes_job_witness :
  do_bgfg ["fg"; "%1"] ok one_bg =
  Ret tt (Shell (<[0%nat := Job 100 1 FG ("sleep 5 &" +:+ NL)]> (jobs one_bg)) 2 0
            ("[1] (100) sleep 5 &" +:+ NL) [(-100, SIGCONT)] (Some 100)).
Proof.
  apply (fg_resumes_job one_bg ok "%1" [] 0 (Job 100 1 BG ("sleep 5 &" +:+ NL)));
    [reflexivity | reflexivity | now right | discriminate].
Defined.

(** X14: when [kill] fails, [bg] and [fg] on a job they could resume
    print [kill failed] with the error text and leave the shell with
    status 1; the job keeps its state and nothing is announced. *)
Theorem do_bgfg_kill_failure
    (s : shell) (kill_r : sysret) (argv0 a : string) (rest : list string)
    (i : nat) (j : job_t) :
  bgfg_target (jobs s) a = Some i ->
  jobs s !! i = Some j ->
  (argv0 = "bg" /\ state j = ST) \/
  (argv0 <> "bg" /\ (state j = ST \/ state j = BG)) ->
  sys_val kill_r < 0 ->
  do_bgfg (argv0 :: a :: rest) kill_r s =
  Exit 1 (with_out (out s +:+ "kill failed: " +:+ sys_err kill_r +:+ NL) s).
Proof.
  intros Htarget Hj Hst Hk.
  rewrite (bgfg_target_run _ _ _ _ _ _ Htarget).
  unfold do_bgfg_job, Kill, deref. munfold. cbn. rewrite Hj.
  destruct Hst as [[-> Hst] | [Hne Hst]].
  - change (bool_decide ("bg" = "bg")) with true. rewrite Hst. cbn.
    destruct (Z.ltb_spec (sys_val kill_r) 0); [reflexivity | lia].
  - rewrite (bool_decide_eq_false_2 _ Hne). cbn.
    assert ((state j =? ST) || (state j =? BG) = true) as ->.
    { destruct Hst as [-> | ->]; reflexivity. }
    cbn. destruct (Z.ltb_spec (sys_val kill_r) 0); [reflexivity | lia].
Qed.

Lemma do_bgfg_kill_failure_witness :
  do_bgfg ["fg"; "100"] (SysRet (-1) "No such process") one_bg =
  Exit 1 (with_out ("[1] (100) sleep 5 &" +:+ NL +:+ "kill failed: No such process" +:+ NL)
            one_bg).
Proof.
  apply (do_bgfg_kill_failure one_bg (SysRet (-1) "No such process") "fg" "100" [] 0
           (Job 100 1 BG ("sleep 5 &" +:+ NL)));
    [reflexivity | reflexivity | right; split; [discriminate | now right] | reflexivity].
Defined.

(** X15: a foreground command (an external program, the fork answering
    the child's pid, a slot free) is entered in the first free slot in
    state [FG] under the job id [nextjid]; no announcement is printed and
    the main flow waits for the child. *)
Theorem eval_foreground_job
    (s : shell) (cl argv0 : string) (args : list string)
    (fork_r kill_r : sysret) (i : nat) (j0 : job_t) :
  parseline cl = Some (0, argv0 :: args) -> ~ is_builtin argv0 ->
  0 < sys_val fork_r ->
  list_find (fun j => pid j = 0) (jobs s) = Some (i, j0) ->
  eval cl fork_r kill_r s =
  Ret tt (Shell (<[i := Job (sys_val fork_r) (nextjid s) FG cl]> (jobs s))
            (next_after_add (nextjid s)) (verbose s)
            (out s +:+ verbose_note s (sys_val fork_r) cl) (sent s)
            (Some (sys_val fork_r))).
Proof.
  intros Hparse Hext Hp Hfree.
  rewrite (eval_external_eq _ _ _ _ _ _ _ Hparse) by (lia || exact Hext).
  unfold eval_external. cbv zeta.
  destruct (Z.ltb_spec (sys_val fork_r) 0); [lia |].
  destruct (Z.eqb_spec (sys_val fork_r) 0); [lia |].
  unfold mbind at 1, M_bind at 1.
  rewrite (addjob_ok _ _ _ _ i j0) by (lia || exact Hfree).
  reflexivity.
Qed.

Lemma eval_foreground_job_witness :
  eval ("sleep 5" +:+ NL) (forked 101) ok one_bg =
  Ret tt (Shell (<[1%nat := Job 101 2 FG ("sleep 5" +:+ NL)]> (jobs one_bg)) 3 0
            ("[1] (100) sleep 5 &" +:+ NL) [] (Some 101)).
Proof.
  apply (eval_foreground_job one_bg ("sleep 5" +:+ NL) "sleep" ["5"] (forked 101) ok
           1 (Job 0 0 UNDEF EmptyString)); [reflexivity | | reflexivity | reflexivity].
  intros [H | [H | [H | H]]]; discriminate H.
Defined.

(** X16: when [fork] fails for an external command, [eval] prints
    [fork failed.] with the error text and leaves the shell with status
    1; no job is entered. *)
Theorem eval_fork_failure
    (s : shell) (cl argv0 : string) (args : list string) (bg : Z)
    (fork_r kill_r : sysret) :
  parseline cl = Some (bg, argv0 :: args) -> bg <> -1 -> ~ is_builtin argv0 ->
  sys_val fork_r < 0 ->
  eval cl fork_r kill_r s =
  Exit 1 (with_out (out s +:+ "fork failed.: " +:+ sys_err fork_r +:+ NL) s).
Proof.
  intros Hparse Hbg Hext Hp.
  rewrite (eval_external_eq _ _ _ _ _ _ _ Hparse) by assumption.
  unfold eval_external. cbv zeta.
  destruct (Z.ltb_spec (sys_val fork_r) 0); [reflexivity | lia].
Qed.

Lemma eval_fork_failure_witness :
  eval ("ls -l &" +:+ NL) (SysRet (-1) "Resource temporarily unavailable") ok one_bg =
  Exit 1 (with_out ("[1] (100) sleep 5 &" +:+ NL
                      +:+ "fork failed.: Resource temporarily unavailable" +:+ NL) one_bg).
Proof.
  apply (eval_fork_failure one_bg ("ls -l &" +:+ NL) "ls" ["-l"] 1);
    [reflexivity | discriminate | | reflexivity].
  intros [H | [H | [H | H]]]; discriminate H.
Defined.

(** X17: with every slot taken and the child's pid not in the table, a
    background command makes [eval] print [Tried to create too many jobs]
    and then dereference the null pointer that [getjobpid] returns; a
    foreground command prints the same line, enters no job, and waits for
    a pid that the table does not hold. *)
Theorem eval_table_full
    (s : shell) (cl argv0 : string) (args : list string) (bg : Z)
    (fork_r kill_r : sysret) :
  parseline cl = Some (bg, argv0 :: args) -> ~ is_builtin argv0 ->
  0 < sys_val fork_r ->
  Forall (fun j => pid j <> 0) (jobs s) ->
  Forall (fun j => pid j <> sys_val fork_r) (jobs s) ->
  (bg = 1 ->
   eval cl fork_r kill_r s =
   Fault (with_out (out s +:+ "Tried to create too many jobs" +:+ NL) s)) /\
  (bg = 0 ->
   eval cl fork_r kill_r s =
   Ret tt (with_waiting (Some (sys_val fork_r))
             (with_out (out s +:+ "Tried to create too many jobs" +:+ NL) s))).
Proof.
  intros Hparse Hext Hp Hfull Hfresh.
  assert (Hadd : addjob (sys_val fork_r) (bg + 1) cl s =
                 Ret 0 (with_out (out s +:+ "Tried to create too many jobs" +:+ NL) s)).
  { apply addjob_full; [lia | now apply list_find_None]. }
  assert (Hnull : getjobpid (jobs s) (sys_val fork_r) = None).
  { pose proof (lookups_first_match_aux (jobs s) (sys_val fork_r) 0) as [Hm _].
    destruct (getjobpid _ _) as [k |]; [| reflexivity].
    destruct Hm as (_ & (y & Hy & Hpid & _) & _).
    rewrite Forall_lookup in Hfresh. now destruct (Hfresh k y Hy). }
  split; intros ->.
  - rewrite (eval_external_eq _ _ _ _ _ _ _ Hparse) by (lia || exact Hext).
    unfold eval_external. cbv zeta.
    destruct (Z.ltb_spec (sys_val fork_r) 0); [lia |].
    destruct (Z.eqb_spec (sys_val fork_r) 0); [lia |].
    unfold mbind at 1, M_bind at 1. rewrite Hadd.
    unfold listjob, deref. munfold. cbn. now rewrite Hnull.
  - rewrite (eval_external_eq _ _ _ _ _ _ _ Hparse) by (lia || exact Hext).
    unfold eval_external. cbv zeta.
    destruct (Z.ltb_spec (sys_val fork_r) 0); [lia |].
    destruct (Z.eqb_spec (sys_val fork_r) 0); [lia |].
    unfold mbind at 1, M_bind at 1. rewrite Hadd. reflexivity.
Qed.

Lemma eval_table_full_witness :
  eval ("sleep 9 &" +:+ NL) (forked 117) ok full_table =
  Fault (with_out (out full_table +:+ "Tried to create too many jobs" +:+ NL) full_table) /\
  eval ("sleep 9" +:+ NL) (forked 117) ok full_table =
  Ret tt (with_waiting (Some 117)
            (with_out (out full_table +:+ "Tried to create too many jobs" +:+ NL)
               full_table)).
Proof.
  assert (Hfull : Forall (fun j => pid j <> 0) (jobs full_table))
    by (vm_compute; repeat (constructor; [discriminate |]); constructor).
  assert (Hfresh : Forall (fun j => pid j <> 117) (jobs full_table))
    by (vm_compute; repeat (constructor; [discriminate |]); constructor).
  assert (Hext : ~ is_builtin "sleep")
    by (intros [H | [H | [H | H]]]; discriminate H).
  split.
  - refine (proj1 (eval_table_full full_table ("sleep 9 &" +:+ NL) "sleep" ["9"] 1
                     (forked 117) ok _ Hext _ Hfull Hfresh) eq_refl); reflexivity.
  - refine (proj2 (eval_table_full full_table ("sleep 9" +:+ NL) "sleep" ["9"] 0
                     (forked 117) ok _ Hext _ Hfull Hfresh) eq_refl); reflexivity.
Defined.

(** ** parseline on plain words *)

Lemma app_String c a b : String c a +:+ b = String c (a +:+ b).
Proof. reflexivity. Qed.

Lemma blank_last_app a c :
  blank_last (a +:+ String c EmptyString) = Some (a +:+ " ").
Proof.
  induction a as [| x a IH]; [reflexivity |].
  rewrite !app_String.
  change (blank_last (String x (a +:+ String c EmptyString)))
    with (match a +:+ String c EmptyString with
          | EmptyString => Some (String " " EmptyString)
          | _ => String x <$> blank_last (a +:+ String c EmptyString)
          end).
  rewrite IH. now destruct a.
Qed.

Lemma skip_spaces_spaces n buf : skip_spaces (spaces n +:+ buf) = skip_spaces buf.
Proof. induction n as [| n IH]; [reflexivity | exact IH]. Qed.

Lemma skip_spaces_plain w buf : plain w = true -> skip_spaces (w +:+ buf) = w +:+ buf.
Proof.
  destruct w as [| c r]; [discriminate |].
  rewrite app_String. unfold plain. cbn [no_space].
  destruct c as [[] [] [] [] [] [] [] []]; cbn; first [discriminate | reflexivity].
Qed.

Lemma strchr_no_space w rest :
  no_space w = true -> strchr " " (w +:+ String " " rest) = Some (w, rest).
Proof.
  induction w as [| c r IH]; [reflexivity |].
  cbn [no_space]. rewrite app_String. cbn [strchr].
  destruct (Ascii.eqb c " "); [discriminate |]. cbn.
  intros Hr. now rewrite (IH Hr).
Qed.

Lemma find_delim_plain w rest :
  plain w = true -> find_delim (w +:+ String " " rest) = Some (w, rest).
Proof.
  destruct w as [| c r]; [discriminate |]. unfold plain.
  intros Hw. apply andb_prop in Hw as [Hq Hns].
  rewrite <- (strchr_no_space _ rest Hns). rewrite app_String.
  destruct c as [[] [] [] [] [] [] [] []]; first [discriminate Hq | reflexivity].
Qed.

Lemma words_buf_cons w r : words_buf (w :: r) = w +:+ String " " (words_buf r).
Proof.
  destruct r as [| w' r]; [reflexivity |].
  unfold words_buf. cbn [String.concat].
  now rewrite !string_app_assoc.
Qed.

Lemma skip_spaces_words_buf ws :
  Forall (fun w => plain w = true) ws -> skip_spaces (words_buf ws) = words_buf ws.
Proof.
  destruct 1 as [| w r Hw Hr]; [reflexivity |].
  rewrite words_buf_cons. now apply skip_spaces_plain.
Qed.

Lemma build_argv_words n ws :
  Forall (fun w => plain w = true) ws ->
  (String.length (words_buf ws) <= n)%nat ->
  build_argv n (words_buf ws) = ws.
Proof.
  intros Hws. revert n. induction Hws as [| w r Hw Hr IH]; intros n Hn.
  - now destruct n.
  - rewrite words_buf_cons in *.
    pose proof (find_delim_plain w (words_buf r) Hw) as Hd.
    destruct n as [| n].
    { apply find_delim_shorter in Hd. lia. }
    cbn [build_argv]. rewrite Hd, (skip_spaces_words_buf r Hr).
    f_equal. apply IH. apply find_delim_shorter in Hd. lia.
Qed.

Lemma parseline_words_aux (n : nat) (ws : list string) (c : ascii) :
  Forall (fun w => plain w = true) ws ->
  parseline (spaces n +:+ String.concat " " ws +:+ String c EmptyString) =
  match last ws with
  | None => Some (-1, [])
  | Some a =>
      if bool_decide (first_char a = Some "&"%char)
      then Some (1, removelast ws)
      else Some (0, ws)
  end.
Proof.
  intros Hws. unfold parseline.
  rewrite <- string_app_assoc, blank_last_app. cbn [mbind option_bind].
  rewrite string_app_assoc, skip_spaces_spaces.
  assert (Hbuf : skip_spaces (String.concat " " ws +:+ " ") = words_buf ws).
  { destruct ws as [| w r]; [reflexivity |].
    change (String.concat " " (w :: r) +:+ " ") with (words_buf (w :: r)).
    now apply skip_spaces_words_buf. }
  rewrite Hbuf. cbv zeta. rewrite (build_argv_words _ ws Hws) by lia.
  destruct ws as [| w r]; [reflexivity |].
  destruct (last (w :: r)) eqn:Hlast; [reflexivity |].
  apply last_None in Hlast. discriminate Hlast.
Qed.



(** X19: a command line of blanks only (ended by one more character,
    the newline) is ignored: [eval] returns at once and changes nothing. *)
Theorem eval_blank_line (n : nat) (c : ascii) (fork_r kill_r : sysret) (s : shell) :
  eval (spaces n +:+ String c EmptyString) fork_r kill_r s = Ret tt s.
Proof.
  pose proof (parseline_words_aux n [] c ltac:(constructor)) as Hparse.
  change (spaces n +:+ String.concat " " [] +:+ String c EmptyString)
    with (spaces n +:+ String c EmptyString) in Hparse.
  unfold eval. now rewrite Hparse.
Qed.

(** X20: a command line whose only word starts with [&] leaves [argv]
    without a first entry, and [eval] dereferences that null pointer in
    [builtin_cmd]. *)
Theorem eval_lone_ampersand
    (n : nat) (w : string) (c : ascii) (fork_r kill_r : sysret) (s : shell) :
  plain w = true -> first_char w = Some "&"%char ->
  eval (spaces n +:+ w +:+ String c EmptyString) fork_r kill_r s = Fault s.
Proof.
  intros Hw Hamp.
  assert (Hparse : parseline (spaces n +:+ w +:+ String c EmptyString) = Some (1, [])).
  { pose proof (parseline_words_aux n [w] c) as H.
    change (String.concat " " [w]) with w in H. rewrite H by (now repeat constructor).
    cbn. now rewrite bool_decide_eq_true_2. }
  unfold eval. now rewrite Hparse.
Qed.

Lemma eval_lone_ampersand_witness :
  eval ("&" +:+ NL) (forked 100) ok one_bg = Fault one_bg.
Proof. apply (eval_lone_ampersand 0 "&" "010"); reflexivity. Defined.

(** ** Numbers printed and read back *)

Lemma pretty_N_char_digit d :
  (d < 10)%N ->
  isdigit (pretty_N_char d) = true /\
  Z.of_N (N_of_ascii (pretty_N_char d)) - 48 = Z.of_N d.
Proof.
  intros Hd.
  assert (d = 0 \/ d = 1 \/ d = 2 \/ d = 3 \/ d = 4 \/ d = 5 \/ d = 6 \/ d = 7
          \/ d = 8 \/ d = 9)%N as Hcases by lia.
  repeat (destruct Hcases as [-> | Hcases]; [split; reflexivity |]).
  subst d. split; reflexivity.
Qed.

Lemma pretty_N_go_read x :
  exists m, forall s acc,
    digits_val acc (pretty_N_go x s) = digits_val (acc * m + Z.of_N x) s /\
    isnumber (pretty_N_go x s) = isnumber s.
Proof.
  induction (N.lt_wf_0 x) as [x _ IH].
  destruct (N.eq_dec x 0%N) as [-> | Hx].
  - exists 1. intros s acc. rewrite pretty_N_go_0. split; [f_equal; lia | reflexivity].
  - destruct (IH (x `div` 10)%N) as [m Hm]; [apply N.div_lt; lia |].
    exists (m * 10). intros s acc.
    rewrite pretty_N_go_step by lia.
    destruct (Hm (String (pretty_N_char (x `mod` 10)) s) acc) as [-> ->].
    destruct (pretty_N_char_digit (x `mod` 10)%N) as [Hdig Hval];
      [apply N.mod_lt; lia |].
    cbn [digits_val isnumber]. rewrite Hdig, Hval. split; [| reflexivity].
    f_equal. pose proof (N.div_mod x 10 ltac:(lia)). lia.
Qed.

Lemma atoi_fmt_d_aux (n : Z) :
  0 <= n <= INT_MAX ->
  isnumber (fmt_d n) = true /\ atoi (fmt_d n) = n.
Proof.
  intros Hn. destruct n as [| p | p]; [split; reflexivity | | lia].
  unfold fmt_d, pretty, pretty_Z, pretty, pretty_positive, pretty, pretty_N.
  destruct (decide (N.pos p = 0%N)); [discriminate |].
  destruct (pretty_N_go_read (N.pos p)) as [m Hm].
  destruct (Hm EmptyString 0) as [Hval Hnum].
  split; [now rewrite Hnum |].
  unfold atoi. rewrite Hval. cbn [digits_val].
  replace (0 * m + Z.of_N (N.pos p)) with (Z.pos p) by lia.
  unfold INT_MAX, LONG_MAX in *. rewrite Z.min_r by lia.
  apply to_int_small. unfold INT_MIN, INT_MAX. lia.
Qed.

(** X21: a number from 0 to [INT_MAX] printed with [%d] passes
    [isnumber], and [atoi] reads it back as the same number. *)
Theorem atoi_fmt_d (n : Z) :
  0 <= n <= INT_MAX ->
  isnumber (fmt_d n) = true /\ atoi (fmt_d n) = n.
Proof. intros; apply atoi_fmt_d_aux; assumption. Qed.

Lemma atoi_fmt_d_witness :
  isnumber (fmt_d 2147483647) = true /\ atoi (fmt_d 2147483647) = 2147483647.
Proof. apply atoi_fmt_d. unfold INT_MAX. lia. Defined.

(** X22: the numbers the shell prints for a job can be typed back: when
    a job is the first slot with its job id, [%] followed by the printed
    job id is the target [bg] and [fg] resolve to its slot, and so is the
    printed pid when the job is the first slot with its pid. *)
Theorem printed_ids_resolve (js : list job_t) (i : nat) (j : job_t) :
  js !! i = Some j ->
  (1 <= jid j <= INT_MAX ->
   Forall (fun y => jid y <> jid j) (take i js) ->
   bgfg_target js ("%" +:+ fmt_d (jid j)) = Some i) /\
  (1 <= pid j <= INT_MAX ->
   Forall (fun y => pid y <> pid j) (take i js) ->
   bgfg_target js (fmt_d (pid j)) = Some i).
Proof.
  intros Hi.
  assert (Hfind : forall (f : job_t -> Z),
             Forall (fun y => f y <> f j) (take i js) ->
             list_find (fun y => f y = f j) js = Some (i, j)).
  { intros f Hbefore. apply list_find_Some. split; [exact Hi |]. split; [reflexivity |].
    intros k y Hk Hlt. rewrite Forall_lookup in Hbefore. apply (Hbefore k).
    now rewrite lookup_take_lt. }
  split; intros Hrange Hbefore.
  - destruct (atoi_fmt_d_aux (jid j)) as [Hnum Hval]; [lia |].
    change (bgfg_target js ("%" +:+ fmt_d (jid j)))
      with (if isnumber (fmt_d (jid j)) then getjobjid js (atoi (fmt_d (jid j))) else None).
    rewrite Hnum, Hval. unfold getjobjid.
    destruct (Z.ltb_spec (jid j) 1); [lia |].
    now rewrite (Hfind jid Hbefore).
  - destruct (atoi_fmt_d_aux (pid j)) as [Hnum Hval]; [lia |].
    destruct (marker_cases (fmt_d (pid j))) as [[d Hd] | (_ & _ & -> & _)].
    + rewrite Hd in Hnum. discriminate Hnum.
    + rewrite Hnum, Hval. unfold getjobpid.
      destruct (Z.ltb_spec (pid j) 1); [lia |].
      now rewrite (Hfind pid Hbefore).
Qed.

Lemma printed_ids_resolve_witness :
  bgfg_target (jobs wrapped_table) ("%" +:+ fmt_d 17) = Some 1%nat /\
  bgfg_target (jobs wrapped_table) (fmt_d 117) = Some 1%nat.
Proof.
  destruct (printed_ids_resolve (jobs wrapped_table) 1
              (Job 117 17 BG ("sleep 9 &" +:+ NL)) eq_refl) as [Hjid Hpid].
  split.
  - apply Hjid; [unfold INT_MAX; cbn; lia |].
    vm_compute. repeat (constructor; [discriminate |]). constructor.
  - apply Hpid; [unfold INT_MAX; cbn; lia |].
    vm_compute. repeat (constructor; [discriminate |]). constructor.
Defined.

(** ** The child-status handler as a whole *)

Lemma sigchld_child_returns p st s :
  exists s' text,
    sigchld_child p st s = Ret tt s' /\
    out s' = out s +:+ text /\ sent s' = sent s /\ waiting s' = waiting s /\
    verbose s' = verbose s /\ length (jobs s') = length (jobs s).
Proof.
  assert (Hdel : forall s1, exists s', (deletejob p;; skip) s1 = Ret tt s' /\
            out s' = out s1 /\ sent s' = sent s1 /\ waiting s' = waiting s1 /\
            verbose s' = verbose s1 /\ length (jobs s') = length (jobs s1)).
  { intros s1. munfold.
    destruct (deletejob_inv p s1) as [-> | (i & j & -> & _)];
      eexists; (split; [reflexivity |]); cbn; repeat split.
    apply length_insert. }
  unfold sigchld_child. destruct st as [c | n | n].
  - destruct (Hdel s) as (s' & Hrun & Hout & Hrest). exists s', EmptyString.
    split; [| now rewrite string_app_nil_r].
    munfold. cbn. cbn in Hrun. destruct (deletejob p s); congruence.
  - set (text := "Job [" +:+ fmt_d (pid2jid (jobs s) p) +:+ "] (" +:+ fmt_d p
                   +:+ ") terminated by signal " +:+ fmt_d n +:+ NL).
    destruct (Hdel (with_out (out s +:+ text) s)) as (s' & Hrun & Hout & Hrest).
    exists s', text. split; [| now split].
    munfold. cbn. cbn in Hrun. fold text.
    destruct (deletejob p (with_out (out s +:+ text) s)); congruence.
  - eexists _, _. split; [reflexivity |]. cbn. repeat split.
Qed.

(** X23: [sigchld_handler] always returns: whatever children are
    reported, it neither leaves the shell nor faults; it sends no signal,
    keeps the 16 slots and the wait status of the main flow, and only adds
    text to stdout. *)
Theorem sigchld_handler_returns (reaped : list (Z * wstatus)) (s : shell) :
  exists s' text,
    sigchld_handler reaped s = Ret tt s' /\
    out s' = out s +:+ text /\ sent s' = sent s /\ waiting s' = waiting s /\
    verbose s' = verbose s /\ length (jobs s') = length (jobs s).
Proof.
  revert s. induction reaped as [| [p st] more IH]; intros s.
  - exists s, EmptyString. split; [reflexivity |].
    now rewrite string_app_nil_r.
  - cbn [sigchld_handler]. destruct (p >? 0).
    + destruct (sigchld_child_returns p st s)
        as (s1 & t1 & Hrun1 & Hout1 & Hsent1 & Hw1 & Hv1 & Hlen1).
      destruct (IH s1) as (s2 & t2 & Hrun2 & Hout2 & Hsent2 & Hw2 & Hv2 & Hlen2).
      exists s2, (t1 +:+ t2). unfold mbind, M_bind. rewrite Hrun1.
      split; [exact Hrun2 |].
      rewrite Hout2, Hout1, string_app_assoc. repeat split; congruence.
    + exists s, EmptyString. split; [reflexivity |].
      now rewrite string_app_nil_r.
Qed.

(** X24: [sigchld_handler] handles the reported children one after the
    other: the reports [l1 ++ l2], all of [l1] with a positive pid, have
    the effect of [l1] followed by that of [l2]; and a report with a pid
    that is not positive ends the loop, whatever follows it. *)
Theorem sigchld_handler_app (l1 l2 : list (Z * wstatus)) (s : shell) :
  Forall (fun r => 0 < r.1) l1 ->
  sigchld_handler (l1 ++ l2) s = (sigchld_handler l1;; sigchld_handler l2) s /\
  (forall p st, p <= 0 ->
     sigchld_handler (l1 ++ (p, st) :: l2) s = sigchld_handler l1 s).
Proof.
  intros Hpos. revert s. induction Hpos as [| [p st] l Hp Hl IH]; intros s.
  - split; [reflexivity |]. intros p st Hp. cbn.
    destruct (Z.gtb_spec p 0); [lia | reflexivity].
  - cbn in Hp. cbn [app sigchld_handler].
    destruct (Z.gtb_spec p 0); [| lia].
    unfold mbind, M_bind.
    destruct (sigchld_child p st s) as [[] s1 | | |]; try (split; reflexivity).
    destruct (IH s1) as [IH1 IH2]. split; [exact IH1 | exact IH2].
Qed.

Lemma sigchld_handler_app_witness :
  sigchld_handler ([(102, WExited 0)] ++ [(103, WSignaled 9)]) full_table =
  (sigchld_handler [(102, WExited 0)];; sigchld_handler [(103, WSignaled 9)]) full_table /\
  (forall p st, p <= 0 ->
     sigchld_handler ([(102, WExited 0)] ++ (p, st) :: [(103, WSignaled 9)]) full_table =
     sigchld_handler [(102, WExited 0)] full_table).
Proof.
  apply (sigchld_handler_app [(102, WExited 0)] [(103, WSignaled 9)] full_table).
  repeat constructor.
Defined.

(** ** Job ids after a removal *)

(** X25: right after a successful removal no slot holds the job id
    [nextjid] (the int range not being exhausted), so a job entered next
    gets a job id that no other job has. *)
Theorem deletejob_then_addjob_fresh_jid
    (s s1 s2 : shell) (p q st : Z) (cl : string) :
  deletejob p s = Ret 1 s1 ->
  maxjid (jobs s1) < INT_MAX ->
  addjob q st cl s1 = Ret 1 s2 ->
  nextjid s1 = maxjid (jobs s1) + 1 /\
  Forall (fun j => jid j < nextjid s1) (jobs s1) /\
  exists i,
    jobs s2 = <[i := Job q (nextjid s1) st cl]> (jobs s1) /\
    jobs s2 !! i = Some (Job q (nextjid s1) st cl) /\
    Forall (fun j => jid j <> nextjid s1) (take i (jobs s2) ++ drop (S i) (jobs s2)).
Proof.
  intros Hdel Hmax Hadd.
  assert (Hnext : nextjid s1 = maxjid (jobs s1) + 1).
  { destruct (deletejob_inv p s) as [H0 | (i & j & H1 & _)];
      [rewrite H0 in Hdel; discriminate Hdel |].
    rewrite H1 in Hdel. injection Hdel as <-. cbn [nextjid jobs] in *.
    apply to_int_small.
    pose proof (maxjid_nonneg (<[i := Job 0 0 UNDEF EmptyString]> (jobs s))).
    unfold INT_MIN, INT_MAX in *. lia. }
  assert (Hbelow : Forall (fun j => jid j < nextjid s1) (jobs s1)).
  { destruct (maxjid_is_largest_aux (jobs s1)) as [Hle _].
    eapply Forall_impl; [exact Hle |]. cbn. intros; lia. }
  split; [exact Hnext |]. split; [exact Hbelow |].
  destruct (addjob_inv q st cl s1)
    as [[H0 _] | [(H0 & _) | (i & j0 & H1 & _ & Hfree)]];
    [rewrite H0 in Hadd; discriminate Hadd.. |].
  rewrite H1 in Hadd. injection Hadd as <-. cbn.
  apply list_find_index in Hfree as (_ & _ & Hi).
  exists i. split; [reflexivity |]. split; [now apply list_lookup_insert_eq |].
  rewrite take_insert_ge, drop_insert_lt by lia.
  rewrite <- (take_drop i (jobs s1)) in Hbelow at 1.
  apply Forall_app in Hbelow as [Htake Hdrop].
  apply Forall_app. split.
  - eapply Forall_impl; [exact Htake |]. cbn. intros; lia.
  - assert (Hsub : Forall (fun j => jid j < nextjid s1) (drop (S i) (jobs s1))).
    { apply Forall_lookup. intros k y Hk. rewrite lookup_drop in Hk.
      rewrite Forall_lookup in Hdrop. apply (Hdrop (S k)).
      rewrite lookup_drop. now replace (i + S k)%nat with (S i + k)%nat by lia. }
    eapply Forall_impl; [exact Hsub |]. cbn. intros; lia.
Qed.

Lemma deletejob_then_addjob_fresh_jid_witness :
  nextjid (reap full_table 102) = 17 /\
  Forall (fun j => jid j < 17) (jobs (reap full_table 102)) /\
  exists i,
    jobs (spawn_bg (reap full_table 102) 117)
      = <[i := Job 117 17 BG ("sleep 9 &" +:+ NL)]> (jobs (reap full_table 102)) /\
    jobs (spawn_bg (reap full_table 102) 117) !! i
      = Some (Job 117 17 BG ("sleep 9 &" +:+ NL)) /\
    Forall (fun j => jid j <> 17)
      (take i (jobs (spawn_bg (reap full_table 102) 117))
         ++ drop (S i) (jobs (spawn_bg (reap full_table 102) 117))).
Proof.
  apply (deletejob_then_addjob_fresh_jid full_table (reap full_table 102)
           (after (addjob 117 BG ("sleep 9 &" +:+ NL) (reap full_table 102)))
           102 117 BG ("sleep 9 &" +:+ NL)).
  - vm_compute. reflexivity.
  - vm_compute. reflexivity.
  - vm_compute. reflexivity.
Defined.

(** ** The empty table *)

Lemma filter_none {A} (P : A -> Prop) `{forall x, Decision (P x)} (l : list A) :
  Forall (fun x => ~ P x) l -> filter P l = [].
Proof.
  induction 1 as [| x l Hx _ IH]; [reflexivity |].
  rewrite filter_cons. now destruct (decide (P x)).
Qed.

(** X26: [initjobs] clears every slot and keeps their number; in the
    table it leaves no pid and no job id is found, no job is in the
    foreground, the largest job id is 0 and both listings are empty. *)
Theorem initjobs_empty (js : list job_t) (p n : Z) :
  length (initjobs js) = length js /\
  Forall (fun j => j = Job 0 0 UNDEF EmptyString) (initjobs js) /\
  getjobpid (initjobs js) p = None /\
  getjobjid (initjobs js) n = None /\
  pid2jid (initjobs js) p = 0 /\
  fgpid (initjobs js) = 0 /\
  maxjid (initjobs js) = 0 /\
  listing (initjobs js) = EmptyString /\
  full_listing (initjobs js) = EmptyString.
Proof.
  assert (Hclear : Forall (fun j => j = Job 0 0 UNDEF EmptyString) (initjobs js)).
  { unfold initjobs. apply Forall_fmap, Forall_true. reflexivity. }
  split; [apply length_map |]. split; [exact Hclear |].
  pose proof (lookups_first_match_aux (initjobs js) p n) as [Hpid Hjid].
  rewrite Forall_lookup in Hclear.
  assert (Hnopid : getjobpid (initjobs js) p = None).
  { destruct (getjobpid _ p) as [i |]; [| reflexivity].
    destruct Hpid as (Hp & (j & Hj & Hpj & _) & _).
    rewrite (Hclear i j Hj) in Hpj. cbn in Hpj. lia. }
  rewrite Hnopid in Hpid. destruct Hpid as [_ Hp2j].
  assert (Hnojid : getjobjid (initjobs js) n = None).
  { destruct (getjobjid _ n) as [i |]; [| reflexivity].
    destruct Hjid as (Hn & (j & Hj & Hnj) & _).
    rewrite (Hclear i j Hj) in Hnj. cbn in Hnj. lia. }
  repeat split; try assumption.
  - apply fgpid_none, Forall_lookup. intros k y Hk.
    now rewrite (Hclear k y Hk).
  - destruct (maxjid_is_largest_aux (initjobs js)) as [_ [H0 | (y & Hy & <-)]];
      [exact H0 |].
    apply list_elem_of_lookup in Hy as [k Hk]. now rewrite (Hclear k y Hk).
  - unfold listing. rewrite filter_none; [reflexivity |].
    apply Forall_lookup. intros k y Hk [Hl _]. rewrite (Hclear k y Hk) in Hl.
    now apply Hl.
  - unfold full_listing. rewrite filter_none; [reflexivity |].
    apply Forall_lookup. intros k y Hk Hl. rewrite (Hclear k y Hk) in Hl.
    now apply Hl.
Qed.

(** ** Stop and resume *)

Lemma list_find_insert_fst {A} (P : A -> Prop) `{forall x, Decision (P x)} l i x y :
  l !! i = Some y -> (P x <-> P y) ->
  fst <$> list_find P (<[i := x]> l) = fst <$> list_find P l.
Proof.
  assert (Hcons : forall a r, list_find P (a :: r)
            = if decide (P a) then Some (0%nat, a)
              else prod_map S id <$> list_find P r) by reflexivity.
  revert i. induction l as [| a l IH]; intros i Hi Hxy; [reflexivity |].
  destruct i as [| i].
  - injection Hi as ->. change (<[0%nat := x]> (y :: l)) with (x :: l).
    rewrite !Hcons.
    destruct (decide (P x)), (decide (P y)); try tauto; reflexivity.
  - change (<[S i := x]> (a :: l)) with (a :: <[i := x]> l).
    rewrite !Hcons. destruct (decide (P a)); [reflexivity |].
    specialize (IH i Hi Hxy).
    destruct (list_find P (<[i := x]> l)) as [[k z] |],
             (list_find P l) as [[k' z'] |]; cbn in *; congruence.
Qed.

Lemma bgfg_target_insert_state js i j st a :
  js !! i = Some j ->
  bgfg_target (<[i := Job (pid j) (jid j) st (cmdline j)]> js) a = bgfg_target js a.
Proof.
  intros Hi. unfold bgfg_target, getjobpid, getjobjid.
  assert (Hp : forall q, fst <$> list_find (fun y => pid y = q)
                 (<[i := Job (pid j) (jid j) st (cmdline j)]> js)
               = fst <$> list_find (fun y => pid y = q) js)
    by (intros q; now apply (list_find_insert_fst _ _ _ _ j)).
  assert (Hn : forall q, fst <$> list_find (fun y => jid y = q)
                 (<[i := Job (pid j) (jid j) st (cmdline j)]> js)
               = fst <$> list_find (fun y => jid y = q) js)
    by (intros q; now apply (list_find_insert_fst _ _ _ _ j)).
  destruct (marker_cases a) as [[d ->] | _].
  - now rewrite Hn.
  - destruct a as [| c r]; [now rewrite Hp |].
    destruct c as [[] [] [] [] [] [] [] []]; now rewrite ?Hp, ?Hn.
Qed.

(** X27: stopping the foreground job from the keyboard and resuming it
    with [fg] is a round trip: [sigtstp_handler] sets the job to [ST],
    which ends the wait, and [fg] on a target that names the job puts the
    job table, the counter and the wait back as they were; nothing is
    printed on the way. *)
Theorem stop_then_fg_round_trip
    (s : shell) (kill1 kill2 : sysret) (a : string) (rest : list string)
    (i : nat) (j : job_t) :
  reachable s -> 0 <= sys_val kill1 -> 0 <= sys_val kill2 ->
  jobs s !! i = Some j -> state j = FG ->
  getjobpid (jobs s) (pid j) = Some i ->
  bgfg_target (jobs s) a = Some i ->
  exists s1 s2,
    sigtstp_handler kill1 s = Ret tt s1 /\
    step s1 (with_waiting None s1) /\
    do_bgfg ("fg" :: a :: rest) kill2 (with_waiting None s1) = Ret tt s2 /\
    jobs s2 = jobs s /\ nextjid s2 = nextjid s /\ waiting s2 = waiting s /\
    out s2 = out s /\
    sent s2 = sent s ++ [(to_int (- pid j), SIGTSTP); (to_int (- pid j), SIGCONT)].
Proof.
  intros Hs Hk1 Hk2 Hi Hfg Hget Htarget.
  destruct (fgpid_of_fg_slot s i j Hs Hi Hfg) as (Hpid & Hp & Hw & Honly).
  set (js1 := <[i := Job (pid j) (jid j) ST (cmdline j)]> (jobs s)).
  set (s1 := Shell js1 (nextjid s) (verbose s) (out s)
               (sent s ++ [(to_int (- pid j), SIGTSTP)]) (waiting s)).
  assert (Hrun1 : sigtstp_handler kill1 s = Ret tt s1).
  { unfold sigtstp_handler, Kill, store_state, deref. munfold. cbn. rewrite Hpid.
    destruct (Z.eqb_spec (pid j) 0); [lia |].
    destruct (Z.ltb_spec (sys_val kill1) 0); [lia |]. cbn.
    rewrite Hget. cbn. now rewrite Hi. }
  assert (Hi1 : js1 !! i = Some (Job (pid j) (jid j) ST (cmdline j)))
    by (apply list_lookup_insert_eq; eauto using lookup_lt_Some).
  exists s1. eexists. split; [exact Hrun1 |]. split.
  { apply (step_waitfg _ (pid j)); [exact Hw |]. cbn.
    unfold js1. rewrite fgpid_after_leaving; [lia | exact Honly | discriminate]. }
  split.
  { apply (fg_resumes_job_aux (with_waiting None s1) kill2 a rest i
             (Job (pid j) (jid j) ST (cmdline j))); cbn; auto.
    unfold js1. now rewrite bgfg_target_insert_state. }
  cbn. unfold js1. rewrite list_insert_insert_eq.
  assert (Hj : Job (pid j) (jid j) FG (cmdline j) = j)
    by (destruct j; cbn in *; congruence).
  rewrite Hj, (list_insert_id _ _ _ Hi), <- app_assoc. auto.
Qed.

Lemma stop_then_fg_round_trip_witness :
  exists s1 s2,
    sigtstp_handler ok one_fg = Ret tt s1 /\
    step s1 (with_waiting None s1) /\
    do_bgfg ["fg"; "%1"] ok (with_waiting None s1) = Ret tt s2 /\
    jobs s2 = jobs one_fg /\ nextjid s2 = 2 /\ waiting s2 = Some 100 /\
    out s2 = EmptyString /\
    sent s2 = [(-100, SIGTSTP); (-100, SIGCONT)].
Proof.
  apply (stop_then_fg_round_trip one_fg ok ok "%1" [] 0
           (Job 100 1 FG ("sleep 5" +:+ NL)) one_fg_reachable);
    [discriminate | discriminate | reflexivity..].
Defined.

(** ** The wait for the foreground job *)

(** X28: while a job is in the foreground the main flow stays in
    [waitfg]: the only moves of the running shell are runs of the three
    signal handlers; no command line is evaluated and the wait does not
    end. *)
Theorem foreground_blocks_main_flow (s s' : shell) (i : nat) (j : job_t) :
  reachable s ->
  jobs s !! i = Some j -> state j = FG ->
  step s s' ->
  (exists reaped, sigchld_handler reaped s = Ret tt s') \/
  (exists kill_r, sigint_handler kill_r s = Ret tt s') \/
  (exists kill_r, sigtstp_handler kill_r s = Ret tt s').
Proof.
  intros Hs Hi Hfg Hstep.
  destruct (fgpid_of_fg_slot s i j Hs Hi Hfg) as (Hpid & _ & Hw & _).
  destruct Hstep as [s cl fr kr s' Hw' He | s p Hw' Hne | s reaped s' Hh
                     | s kr s' Hh | s kr s' Hh]; eauto.
  - rewrite Hw in Hw'. discriminate Hw'.
  - rewrite Hw in Hw'. injection Hw' as <-. contradiction.
Qed.

Lemma foreground_blocks_main_flow_witness :
  (exists reaped,
      sigchld_handler reaped one_fg = Ret tt (after (sigtstp_handler ok one_fg))) \/
  (exists kill_r,
      sigint_handler kill_r one_fg = Ret tt (after (sigtstp_handler ok one_fg))) \/
  (exists kill_r,
      sigtstp_handler kill_r one_fg = Ret tt (after (sigtstp_handler ok one_fg))).
Proof.
  apply (foreground_blocks_main_flow one_fg _ 0 (Job 100 1 FG ("sleep 5" +:+ NL))
           one_fg_reachable); [reflexivity | reflexivity |].
  apply (step_sigtstp _ ok). reflexivity.
Defined.

(** ** Pids when the system hands out fresh ones *)

Lemma fresh_step_step s s' : fresh_step s s' -> step s s'.
Proof.
  destruct 1; eauto using step_eval, step_waitfg, step_sigchld, step_sigint,
    step_sigtstp.
Qed.

Lemma fresh_reachable s v : rtc fresh_step (boot v) s -> reachable s.
Proof.
  intros Hrun. exists v.
  induction Hrun; [apply rtc_refl | eapply rtc_l; eauto using fresh_step_step].
Qed.

Lemma eval_adds_pid cl fork_r kill_r s s' :
  eval cl fork_r kill_r s = Ret tt s' ->
  qstep s s' \/
  (exists i j0 st,
      list_find (fun j => pid j = 0) (jobs s) = Some (i, j0) /\
      1 <= sys_val fork_r /\
      jobs s' = <[i := Job (sys_val fork_r) (nextjid s) st cl]> (jobs s)).
Proof.
  unfold eval.
  destruct (parseline cl) as [[bg argv] |] eqn:Hparse; [| discriminate].
  destruct (Z.eqb_spec bg (-1)); [intros [= <-]; left; now apply q_same |].
  unfold mbind at 1, M_bind at 1.
  destruct (builtin_cmd argv kill_r s) as [b s1 | | |] eqn:Hb; [| discriminate..].
  destruct (Z.eqb_spec b 0) as [-> | Hne].
  2: { intros [= <-]. left. eapply builtin_cmd_qstep; eauto. }
  apply builtin_cmd_zero in Hb as ->. cbv zeta.
  destruct (Z.ltb_spec (sys_val fork_r) 0); [discriminate |].
  destruct (Z.eqb_spec (sys_val fork_r) 0); [discriminate |].
  unfold mbind at 1, M_bind at 1.
  destruct (addjob_inv (sys_val fork_r) (bg + 1) cl s)
    as [[-> ?] | [(-> & Hp & Hfull) | (i & j0 & -> & Hp & Hfree)]]; [lia | |].
  - destruct (bg =? 0).
    + intros [= <-]. left. now apply q_same.
    + munfold. cbn. unfold listjob, deref. munfold. cbn.
      destruct (option_bind _ _ _ _) as [j |]; [| discriminate].
      intros [= <-]. left. now apply q_same.
  - destruct (bg =? 0).
    + intros [= <-]. right. exists i, j0, (bg + 1). auto.
    + munfold. cbn. unfold listjob, deref. munfold. cbn.
      destruct (option_bind _ _ _ _) as [j |]; [| discriminate].
      intros [= <-]. right. exists i, j0, (bg + 1). auto.
Qed.

Lemma pid_unique_qstep s s' : pid_unique (jobs s) -> qstep s s' -> pid_unique (jobs s').
Proof.
  intros Huniq [Hj _ | i j Hi Hj _ | i j st Hi _ _ Hj _]; rewrite Hj;
    [exact Huniq | |]; intros k k' y y' Hk Hk' Hl Hpid.
  - apply list_lookup_insert_Some in Hk as [(_ & <- & _) | [Hne Hk]];
      [now contradiction Hl |].
    apply list_lookup_insert_Some in Hk' as [(_ & <- & _) | [Hne' Hk']];
      [cbn in Hpid; now contradiction Hl | eauto].
  - assert (Hold : forall m z, <[i := Job (pid j) (jid j) st (cmdline j)]> (jobs s) !! m
                                 = Some z ->
                     exists z', jobs s !! m = Some z' /\ pid z' = pid z).
    { intros m z Hm.
      apply list_lookup_insert_Some in Hm as [(<- & <- & _) | [_ Hm]]; eauto. }
    destruct (Hold k y Hk) as (z & Hz & Hpz).
    destruct (Hold k' y' Hk') as (z' & Hz' & Hpz').
    apply (Huniq k k' z z' Hz Hz'); [unfold live in *; congruence | congruence].
Qed.

Lemma pid_unique_qsteps s s' :
  rtc qstep s s' -> pid_unique (jobs s) -> pid_unique (jobs s').
Proof. induction 1; eauto using pid_unique_qstep. Qed.

Lemma pid_unique_fresh_step s s' :
  pid_unique (jobs s) -> fresh_step s s' -> pid_unique (jobs s').
Proof.
  intros Huniq Hstep.
  destruct Hstep as [s cl fr kr s1 Hw Hfresh He | s p Hw Hfg | s reaped s1 Hh
                     | s kr s1 Hh | s kr s1 Hh].
  - destruct (eval_adds_pid _ _ _ _ _ He) as [Hq | (i & j0 & st & Hfree & Hp & Hj)];
      [eauto using pid_unique_qstep |].
    rewrite Hj. rewrite Forall_lookup in Hfresh.
    intros k k' y y' Hk Hk' Hl Hpid.
    apply list_lookup_insert_Some in Hk as [(<- & <- & _) | [Hne Hk]];
      apply list_lookup_insert_Some in Hk' as [(<- & <- & _) | [Hne' Hk']];
      try reflexivity; cbn in Hpid.
    + now destruct (Hfresh k' y' Hk').
    + now destruct (Hfresh k y Hk).
    + eauto.
  - exact Huniq.
  - eapply pid_unique_qsteps; eauto using sigchld_handler_qsteps.
  - eapply pid_unique_qstep; eauto using sigint_handler_qstep.
  - eapply pid_unique_qstep; eauto using sigtstp_handler_qstep.
Qed.

(** X29: when [fork] never answers a pid that a slot still carries, no
    two live jobs of the running shell have the same pid, and every live
    job is found under its pid: [getjobpid] returns its slot and
    [pid2jid] its job id. *)
Theorem pids_unique_when_fresh (s : shell) (v : Z) :
  rtc fresh_step (boot v) s ->
  pid_unique (jobs s) /\
  Forall (fun j => live j ->
            (exists i, getjobpid (jobs s) (pid j) = Some i /\ jobs s !! i = Some j) /\
            pid2jid (jobs s) (pid j) = jid j)
         (jobs s).
Proof.
  intros Hrun.
  assert (Huniq : pid_unique (jobs s)).
  { assert (Hboot : pid_unique (jobs (boot v))).
    { intros i i' j j' Hi _ Hl. apply boot_slot in Hi as ->. now contradiction Hl. }
    revert Hboot. induction Hrun; eauto using pid_unique_fresh_step. }
  split; [exact Huniq |].
  destruct (table_ok_reachable_aux s (fresh_reachable s v Hrun)) as [_ Hok].
  apply Forall_lookup. intros i j Hi Hl.
  rewrite Forall_lookup in Hok.
  destruct (Hok i j Hi) as [-> | [Hp _]]; [now contradiction Hl |].
  assert (Hfind : list_find (fun y => pid y = pid j) (jobs s) = Some (i, j)).
  { apply list_find_Some. split; [exact Hi |]. split; [reflexivity |].
    intros k y Hk Hlt Hpid.
    assert (k = i); [| lia].
    apply (Huniq k i y j Hk Hi); [unfold live; lia | exact Hpid]. }
  unfold getjobpid, pid2jid. destruct (Z.ltb_spec (pid j) 1); [lia |].
  rewrite Hfind. cbn. eauto.
Qed.

Lemma pids_unique_when_fresh_witness :
  pid_unique (jobs one_bg) /\
  Forall (fun j => live j ->
            (exists i, getjobpid (jobs one_bg) (pid j) = Some i /\
                       jobs one_bg !! i = Some j) /\
            pid2jid (jobs one_bg) (pid j) = jid j)
         (jobs one_bg).
Proof.
  apply (pids_unique_when_fresh one_bg 0).
  apply rtc_once.
  apply (fresh_eval _ ("sleep 5 &" +:+ NL) (forked 100) ok); [reflexivity | |reflexivity].
  vm_compute. repeat (constructor; [discriminate |]). constructor.
Defined.

(** ** parseline on quoted arguments *)








